(** * stb_image.h (test-pattern stub): a shallow embedding of [stbi_load]

    The header's implementation section defines two functions:
    [stbi_load], which ignores the file name and fills a freshly
    [malloc]ed 64x64 RGB buffer with a checkerboard, and
    [stbi_image_free], a wrapper around [free].

    The C code is embedded as state-passing functions over an explicit
    memory: [int] objects reached through the out-pointers [x], [y],
    [comp]; heap blocks of [unsigned char] cells handed out by [malloc];
    and the outcome of a run, which is a normal return, undefined
    behaviour, or exhaustion of the loop fuel of the model. *)

From Stdlib Require Import ZArith Lia String.
From stdpp Require Import base option list gmap strings.

Local Open Scope Z_scope.

Module StbImage.

(** ** Memory *)

(** An [unsigned char] object. What [malloc] hands out has indeterminate
    content until it is written. *)
Inductive cell : Type :=
  | Undef
  | Val (b : Z).

(** A value of type [stbi_uc *]: the null pointer or the start of a block. *)
Inductive ptr : Type :=
  | NULL
  | Ptr (b : positive).

Record mem : Type := Mem {
  ints : gmap positive Z;            (* the int objects, by address *)
  heap : gmap positive (list cell);  (* the live blocks obtained from malloc *)
  avail : Z;                         (* bytes the allocator can still hand out *)
  iterations : nat                   (* ghost: executions of the inner loop body *)
}.

Inductive outcome (A : Type) : Type :=
  | Ok (a : A) (m : mem)
  | Undefined
  | OutOfFuel.
Arguments Ok {A} a m.
Arguments Undefined {A}.
Arguments OutOfFuel {A}.

Definition M (A : Type) : Type := mem → outcome A.

Definition ret {A} (a : A) : M A := λ m, Ok a m.

Definition bind {A B} (e : M A) (k : A → M B) : M B := λ m,
  match e m with
  | Ok a m' => k a m'
  | Undefined => Undefined
  | OutOfFuel => OutOfFuel
  end.

Notation "'let*' x := e 'in' k" := (bind e (λ x, k))
  (at level 10, x binder, e at level 100, k at level 200,
   format "'[v' 'let*'  x  :=  e  'in' '/' k ']'").
Notation "e ;;; k" := (bind e (λ _, k))
  (at level 100, k at level 200, right associativity,
   format "'[v' e  ;;; '/' k ']'").

Definition undefined {A} : M A := λ _, Undefined.
Definition out_of_fuel {A} : M A := λ _, OutOfFuel.

(** ** The type [int]: 32 bits, signed; overflow is undefined behaviour *)

Definition INT_MIN : Z := -2147483648.
Definition INT_MAX : Z := 2147483647.

Definition in_int (z : Z) : bool := (INT_MIN <=? z) && (z <=? INT_MAX).

Definition int_result (z : Z) : M Z :=
  if in_int z then ret z else undefined.

Definition int_add (a b : Z) : M Z := int_result (a + b).
Definition int_mul (a b : Z) : M Z := int_result (a * b).

(** [/] and [%] of C truncate towards zero. *)
Definition int_div (a b : Z) : M Z :=
  if b =? 0 then undefined else int_result (a ÷ b).
Definition int_mod (a b : Z) : M Z :=
  if b =? 0 then undefined
  else if in_int (a ÷ b) then ret (Z.rem a b) else undefined.

(** ** Loads and stores *)

(** [*p] for [p : int *]. *)
Definition load_int (p : positive) : M Z := λ m,
  match ints m !! p with
  | Some v => Ok v m
  | None => Undefined
  end.

(** [*p = v] for [p : int *]. *)
Definition store_int (p : positive) (v : Z) : M unit := λ m,
  match ints m !! p with
  | Some _ => Ok () (Mem (<[p := v]> (ints m)) (heap m) (avail m) (iterations m))
  | None => Undefined
  end.

(** [data[idx] = v] for [data : stbi_uc *]: the value is converted to
    [unsigned char]; a null pointer, a dead block or an index outside the
    block is undefined behaviour. *)
Definition store_uc (data : ptr) (idx : Z) (v : Z) : M unit := λ m,
  match data with
  | NULL => Undefined
  | Ptr b =>
    match heap m !! b with
    | None => Undefined
    | Some l =>
      if (0 <=? idx) && (idx <? Z.of_nat (length l)) then
        Ok () (Mem (ints m) (<[b := <[Z.to_nat idx := Val (v mod 256)]> l]> (heap m))
                   (avail m) (iterations m))
      else Undefined
    end
  end.

(** [malloc(size)]: a fresh block of [size] cells of indeterminate content,
    or the null pointer when the allocator cannot serve the request. *)
Definition malloc (size : Z) : M ptr := λ m,
  if (0 <=? size) && (size <=? avail m) then
    let b := fresh (dom (heap m)) in
    Ok (Ptr b) (Mem (ints m) (<[b := replicate (Z.to_nat size) Undef]> (heap m))
                    (avail m - size) (iterations m))
  else Ok NULL m.

(** [free(p)]: a no-op on the null pointer, undefined on a pointer that is
    not a live block; a live block ceases to be live. C does not say what
    the allocator can serve after a release, so [avail] is left as it is:
    no later [malloc] succeeds in the model because of a [free]. *)
Definition free (p : ptr) : M unit := λ m,
  match p with
  | NULL => Ok () m
  | Ptr b =>
    match heap m !! b with
    | None => Undefined
    | Some l =>
      Ok () (Mem (ints m) (delete b (heap m)) (avail m) (iterations m))
    end
  end.

(** Ghost step: counts one execution of the inner loop body. *)
Definition tick : M unit := λ m,
  Ok () (Mem (ints m) (heap m) (avail m) (S (iterations m))).

(** ** [stbi_load] *)

(** The body of the inner loop (lines 49-58). *)
Definition fill_pixel (data : ptr) (x : positive) (i j : Z) : M unit :=
  tick ;;;
  let* vx := load_int x in
  let* t := int_mul i vx in
  let* s := int_add t j in
  let* idx := int_mul s 3 in
  let* qi := int_div i 8 in
  let* qj := int_div j 8 in
  let* q := int_add qi qj in
  let* r := int_mod q 2 in
  if r =? 0 then
    store_uc data idx 255 ;;;
    let* idx1 := int_add idx 1 in
    store_uc data idx1 0 ;;;
    let* idx2 := int_add idx 2 in
    store_uc data idx2 0
  else
    store_uc data idx 0 ;;;
    let* idx1 := int_add idx 1 in
    store_uc data idx1 255 ;;;
    let* idx2 := int_add idx 2 in
    store_uc data idx2 0.

(** [for (int j = ...; j < *x; j++)] (line 48), entered with the current [j]. *)
Fixpoint fill_row (fuel : nat) (data : ptr) (x : positive) (i j : Z) : M unit :=
  match fuel with
  | O => out_of_fuel
  | S fuel' =>
    let* vx := load_int x in
    if j <? vx then
      fill_pixel data x i j ;;;
      let* j' := int_add j 1 in
      fill_row fuel' data x i j'
    else ret ()
  end.

(** [for (int i = ...; i < *y; i++)] (line 47), entered with the current [i];
    every run of the inner loop gets the fuel [fuel_j]. *)
Fixpoint fill_rows (fuel_j fuel : nat) (data : ptr) (x y : positive) (i : Z) : M unit :=
  match fuel with
  | O => out_of_fuel
  | S fuel' =>
    let* vy := load_int y in
    if i <? vy then
      fill_row fuel_j data x i 0 ;;;
      let* i' := int_add i 1 in
      fill_rows fuel_j fuel' data x y i'
    else ret ()
  end.

(** [stbi_uc *stbi_load(char const *filename, int *x, int *y, int *comp,
    int req_comp)] (lines 37-63). *)
Definition stbi_load (fuel : nat) (filename : string) (x y comp : positive)
    (req_comp : Z) : M ptr :=
  store_int x 64 ;;;
  store_int y 64 ;;;
  store_int comp 3 ;;;
  let* vx := load_int x in
  let* vy := load_int y in
  let* t := int_mul vx vy in
  let* size := int_mul t 3 in
  let* data := malloc size in
  fill_rows fuel fuel data x y 0 ;;;
  ret data.

(** [void stbi_image_free(void *retval_from_stbi_load)] (lines 65-67). *)
Definition stbi_image_free (retval_from_stbi_load : ptr) : M unit :=
  free retval_from_stbi_load.

(** ** The test pattern, as a function of the byte offset *)

(** The test of line 50 on the pixel of row [i] and column [j]. *)
Definition red_tile (i j : Z) : bool := Z.rem (i ÷ 8 + j ÷ 8) 2 =? 0.

(** The byte the loop leaves at offset [o]: offset [o] belongs to pixel
    [o / 3], which lies in row [(o / 3) / 64] and column [(o / 3) mod 64],
    and is its channel [o mod 3]. *)
Definition pattern_cell (o : nat) : cell :=
  let p := Z.of_nat o / 3 in
  let k := Z.of_nat o mod 3 in
  let i := p / 64 in
  let j := p mod 64 in
  Val (if k =? 0 then (if red_tile i j then 255 else 0)
       else if k =? 1 then (if red_tile i j then 0 else 255)
       else 0).

(** The block after the first [n] bytes have been written. *)
Definition filled (n : nat) : list cell :=
  (pattern_cell <$> seq 0 n) ++ replicate (64 * 64 * 3 - n) Undef.

(** [m] is [m0] after the allocation of block [b] and the writing of its
    first [n] bytes in [k] executions of the loop body. *)
Definition at_pos (m0 m : mem) (b : positive) (n k : nat) : Prop :=
  ints m = ints m0 ∧
  heap m = <[b := filled n]> (heap m0) ∧
  avail m = avail m0 ∧
  iterations m = (iterations m0 + k)%nat.

(** What a caller must provide: three live [int] objects for the
    out-parameters, [comp] being neither [x] nor [y]. *)
Definition out_params_ok (m : mem) (x y comp : positive) : Prop :=
  is_Some (ints m !! x) ∧ is_Some (ints m !! y) ∧ is_Some (ints m !! comp) ∧
  comp ≠ x ∧ comp ≠ y.

(** The allocator can serve a request of [size] bytes. *)
Definition can_alloc (m : mem) (size : Z) : Prop := 0 ≤ size ≤ avail m.

(** The run neither exhausts its fuel nor, when it returns, has touched an
    [int] object. *)
Definition halts_framed {A} (e : M A) (m : mem) : Prop :=
  match e m with
  | Ok _ m' => ints m' = ints m
  | Undefined => True
  | OutOfFuel => False
  end.

(** The three bytes of pixel [(row, col)] of an image of width [w] stored
    in [buf], as the offsets of line 49 locate them. *)
Definition pixel (w : Z) (buf : list cell) (row col : Z) : option (Z * Z * Z) :=
  let idx := Z.to_nat ((row * w + col) * 3) in
  match buf !! idx, buf !! (idx + 1)%nat, buf !! (idx + 2)%nat with
  | Some (Val r), Some (Val g), Some (Val b) => Some (r, g, b)
  | _, _, _ => None
  end.

(** Channel [k] of a colour. *)
Definition channel (k : Z) (c : Z * Z * Z) : Z :=
  let '(r, g, b) := c in
  if k =? 0 then r else if k =? 1 then g else b.

(** The colour lines 50-58 give to the pixel of row [i] and column [j]. *)
Definition colour (i j : Z) : Z * Z * Z :=
  if red_tile i j then (255, 0, 0) else (0, 255, 0).

(** The byte a written cell holds (0 for a cell of indeterminate
    content, which the lemmas using it exclude). *)
Definition cell_byte (c : cell) : Z :=
  match c with
  | Val v => v
  | Undef => 0
  end.

(** A caller's memory for the examples: three [int] variables at the
    addresses 1, 2 and 3, an empty heap, and an allocator with exactly the
    12288 bytes of one image left. *)
Definition caller_mem : mem :=
  Mem {[1%positive := 0; 2%positive := 0; 3%positive := 0]} ∅ 12288 0.

(** ** The loops on an image of any width *)

(** The byte the loops leave at offset [o] when the width they read is
    [w]: channel [o mod 3] of the pixel in row [(o / 3) / w] and column
    [(o / 3) mod w]. *)
Definition pattern_cell_w (w : Z) (o : nat) : cell :=
  let p := Z.of_nat o / 3 in
  Val (channel (Z.of_nat o mod 3) (colour (p / w) (p mod w))).

(** A block that held [l0] when the loops were entered, after its first
    [n] bytes have been written. *)
Definition overwritten (w : Z) (l0 : list cell) (n : nat) : list cell :=
  (pattern_cell_w w <$> seq 0 n) ++ drop n l0.

(** [m] is [m0] after the writing of the first [n] bytes of block [b],
    which held [l0], in [k] executions of the loop body. *)
Definition at_pos_w (w : Z) (l0 : list cell) (m0 m : mem) (b : positive)
    (n k : nat) : Prop :=
  ints m = ints m0 ∧
  heap m = <[b := overwritten w l0 n]> (heap m0) ∧
  avail m = avail m0 ∧
  iterations m = (iterations m0 + k)%nat.

(** What line 39 or 40 stored in [*p] and line 41 may have overwritten:
    the value of [*p] when the size is computed. *)
Definition out_dim (p comp : positive) : Z :=
  if decide (p = comp) then 3 else 64.

(** A memory with a live block of 30 stale bytes and [int] objects holding
    a width of 3 and a height of 3. *)
Definition stale_mem : mem :=
  Mem {[1%positive := 3; 2%positive := 3]} {[5%positive := replicate 30 (Val 7)]} 0 0.

(** * Proofs *)

(** ** Running the monad *)

Lemma bind_Ok {A B} (e : M A) (k : A → M B) m a m' :
  e m = Ok a m' → bind e k m = k a m'.
Proof. unfold bind. by intros ->. Qed.

Lemma int_result_Ok z m :
  INT_MIN ≤ z ≤ INT_MAX → int_result z m = Ok z m.
Proof.
  intros [Hlo Hhi]. unfold int_result, in_int.
  apply Z.leb_le in Hlo. apply Z.leb_le in Hhi. by rewrite Hlo, Hhi.
Qed.

Lemma int_add_Ok a b m :
  INT_MIN ≤ a + b ≤ INT_MAX → int_add a b m = Ok (a + b) m.
Proof. apply int_result_Ok. Qed.

Lemma int_mul_Ok a b m :
  INT_MIN ≤ a * b ≤ INT_MAX → int_mul a b m = Ok (a * b) m.
Proof. apply int_result_Ok. Qed.

Lemma int_div_Ok a b m :
  0 ≤ a ≤ INT_MAX → 0 < b → int_div a b m = Ok (a / b) m.
Proof.
  intros Ha Hb. unfold int_div.
  destruct (Z.eqb_spec b 0) as [->|_]; [lia|].
  rewrite Z.quot_div_nonneg by lia.
  apply int_result_Ok. unfold INT_MIN, INT_MAX in *. split.
  - pose proof (Z.div_pos a b). lia.
  - pose proof (Z.div_le_upper_bound a b INT_MAX). unfold INT_MAX in *. nia.
Qed.

Lemma int_mod_Ok a b m :
  0 ≤ a ≤ INT_MAX → 0 < b → int_mod a b m = Ok (a mod b) m.
Proof.
  intros Ha Hb. unfold int_mod.
  destruct (Z.eqb_spec b 0) as [->|_]; [lia|].
  rewrite Z.rem_mod_nonneg by lia.
  rewrite Z.quot_div_nonneg by lia.
  assert (Hq : in_int (a / b) = true).
  { unfold in_int, INT_MIN, INT_MAX in *. apply andb_true_intro. split.
    - apply Z.leb_le. pose proof (Z.div_pos a b). lia.
    - apply Z.leb_le. pose proof (Z.div_le_upper_bound a b 2147483647). nia. }
  by rewrite Hq.
Qed.

(** [run H] performs the next monadic step with the equation [H];
    [run_int] performs an arithmetic step whose result is in range. *)
Ltac run H := rewrite (bind_Ok _ _ _ _ _ H).
Ltac int_bounds := unfold INT_MIN, INT_MAX in *; lia.
Ltac run_int :=
  erewrite bind_Ok;
  [|solve [ apply int_add_Ok; int_bounds
          | apply int_mul_Ok; int_bounds
          | apply int_div_Ok; [int_bounds | lia]
          | apply int_mod_Ok; [int_bounds | lia] ]].

(** ** The block while it is being filled *)

Lemma filled_length n : (n ≤ 64 * 64 * 3)%nat → length (filled n) = (64 * 64 * 3)%nat.
Proof.
  intros Hn. unfold filled.
  rewrite length_app, length_fmap, length_seq, length_replicate. lia.
Qed.

Lemma filled_0 : filled 0 = replicate (64 * 64 * 3) Undef.
Proof. reflexivity. Qed.

Lemma filled_write n c :
  (n < 64 * 64 * 3)%nat → c = pattern_cell n → <[n := c]> (filled n) = filled (S n).
Proof.
  intros Hn ->. unfold filled.
  rewrite insert_app_r_alt by (rewrite length_fmap, length_seq; lia).
  rewrite length_fmap, length_seq, Nat.sub_diag.
  replace (64 * 64 * 3 - n)%nat with (S (64 * 64 * 3 - S n)) by lia.
  rewrite seq_S, fmap_app, <- app_assoc. reflexivity.
Qed.

Lemma filled_lookup n o :
  (o < n)%nat → filled n !! o = Some (pattern_cell o).
Proof.
  intros Ho. unfold filled.
  rewrite lookup_app_l by (rewrite length_fmap, length_seq; lia).
  rewrite list_lookup_fmap, lookup_seq_lt by lia. reflexivity.
Qed.

Lemma filled_lookup_Undef n o :
  (n ≤ o < 64 * 64 * 3)%nat → filled n !! o = Some Undef.
Proof.
  intros Ho. unfold filled.
  rewrite lookup_app_r by (rewrite length_fmap, length_seq; lia).
  rewrite length_fmap, length_seq. apply lookup_replicate_2. lia.
Qed.

(** ** The pattern at the offsets of the code *)

Lemma offset_split i j k :
  0 ≤ j < 64 → 0 ≤ k < 3 →
  ((i * 64 + j) * 3 + k) / 3 = i * 64 + j ∧
  ((i * 64 + j) * 3 + k) mod 3 = k ∧
  (i * 64 + j) / 64 = i ∧
  (i * 64 + j) mod 64 = j.
Proof.
  intros Hj Hk. repeat split.
  - symmetry. apply (Z.div_unique _ 3 _ k); lia.
  - symmetry. apply (Z.mod_unique _ 3 (i * 64 + j) k); lia.
  - symmetry. apply (Z.div_unique _ 64 _ j); lia.
  - symmetry. apply (Z.mod_unique _ 64 i j); lia.
Qed.

Lemma pattern_cell_at i j k :
  0 ≤ i → 0 ≤ j < 64 → 0 ≤ k < 3 →
  pattern_cell (Z.to_nat ((i * 64 + j) * 3 + k)) = Val (channel k (colour i j)).
Proof.
  intros Hi Hj Hk. unfold pattern_cell.
  rewrite Z2Nat.id by lia.
  destruct (offset_split i j k Hj Hk) as (-> & -> & -> & ->).
  unfold channel, colour.
  destruct (red_tile i j), (k =? 0), (k =? 1); reflexivity.
Qed.

Lemma red_tile_nonneg i j :
  0 ≤ i → 0 ≤ j → red_tile i j = ((i / 8 + j / 8) mod 2 =? 0).
Proof.
  intros Hi Hj. unfold red_tile.
  rewrite !Z.quot_div_nonneg by lia.
  rewrite Z.rem_mod_nonneg; [done| |lia].
  pose proof (Z.div_pos i 8). pose proof (Z.div_pos j 8). lia.
Qed.

(** ** One step of the loops on a block in the state [at_pos] *)

Lemma tick_at m0 m b n k :
  at_pos m0 m b n k →
  ∃ m', tick m = Ok () m' ∧ at_pos m0 m' b n (S k).
Proof.
  intros (Hi & Hh & Ha & Hk). eexists. split; [reflexivity|].
  repeat split; simpl; try done. lia.
Qed.

Lemma load_int_at m0 m b n k p v :
  at_pos m0 m b n k → ints m0 !! p = Some v → load_int p m = Ok v m.
Proof. intros (Hi & _) Hp. unfold load_int. by rewrite Hi, Hp. Qed.

Lemma store_uc_at m0 m b n k idx v :
  at_pos m0 m b n k → idx = Z.of_nat n → (n < 64 * 64 * 3)%nat →
  Val (v mod 256) = pattern_cell n →
  ∃ m', store_uc (Ptr b) idx v m = Ok () m' ∧ at_pos m0 m' b (S n) k.
Proof.
  intros (Hi & Hh & Ha & Hk) -> Hn Hv. unfold store_uc.
  rewrite Hh, lookup_insert_eq, filled_length by lia.
  destruct (Z.leb_spec 0 (Z.of_nat n)); [|lia].
  destruct (Z.ltb_spec (Z.of_nat n) (Z.of_nat (64 * 64 * 3))); [|lia].
  simpl. eexists. split; [reflexivity|].
  repeat split; simpl; try done.
  rewrite insert_insert_eq, Nat2Z.id. f_equal. by apply filled_write.
Qed.

Lemma fill_pixel_at m0 m b x i j k :
  ints m0 !! x = Some 64 → 0 ≤ i < 64 → 0 ≤ j < 64 →
  at_pos m0 m b (Z.to_nat ((i * 64 + j) * 3)) k →
  ∃ m', fill_pixel (Ptr b) x i j m = Ok () m' ∧
        at_pos m0 m' b (Z.to_nat ((i * 64 + (j + 1)) * 3)) (S k).
Proof.
  intros Hx Hi Hj Hm. unfold fill_pixel.
  assert (0 ≤ i / 8 < 8) by (split; [apply Z.div_pos|apply Z.div_lt_upper_bound]; lia).
  assert (0 ≤ j / 8 < 8) by (split; [apply Z.div_pos|apply Z.div_lt_upper_bound]; lia).
  destruct (tick_at _ _ _ _ _ Hm) as (m1 & Hs & Hm1). run Hs.
  run (load_int_at _ _ _ _ _ _ _ Hm1 Hx).
  do 7 run_int.
  rewrite <- red_tile_nonneg by lia.
  set (idx := (i * 64 + j) * 3) in *.
  assert (Hc : ∀ c, 0 ≤ c < 3 →
    pattern_cell (Z.to_nat idx + Z.to_nat c) = Val (channel c (colour i j))).
  { intros c Hc. rewrite <- Z2Nat.inj_add by lia. apply pattern_cell_at; lia. }
  pose proof (Hc 0 ltac:(lia)) as Hc0. rewrite Nat.add_0_r in Hc0.
  pose proof (Hc 1 ltac:(lia)) as Hc1. change (Z.to_nat 1) with 1%nat in Hc1.
  rewrite Nat.add_1_r in Hc1.
  pose proof (Hc 2 ltac:(lia)) as Hc2. change (Z.to_nat 2) with 2%nat in Hc2.
  replace (Z.to_nat idx + 2)%nat with (S (S (Z.to_nat idx))) in Hc2 by lia.
  replace (Z.to_nat ((i * 64 + (j + 1)) * 3)) with (S (S (S (Z.to_nat idx)))) by lia.
  unfold colour, channel in Hc0, Hc1, Hc2.
  destruct (red_tile i j); simpl in Hc0, Hc1, Hc2.
  - destruct (store_uc_at _ _ _ _ _ idx 255 Hm1) as (m2 & Hs2 & Hm2);
      [lia | lia | by rewrite Hc0 |]. run Hs2. run_int.
    destruct (store_uc_at _ _ _ _ _ (idx + 1) 0 Hm2) as (m3 & Hs3 & Hm3);
      [lia | lia | by rewrite Hc1 |]. run Hs3. run_int.
    destruct (store_uc_at _ _ _ _ _ (idx + 2) 0 Hm3) as (m4 & Hs4 & Hm4);
      [lia | lia | by rewrite Hc2 |].
    by exists m4.
  - destruct (store_uc_at _ _ _ _ _ idx 0 Hm1) as (m2 & Hs2 & Hm2);
      [lia | lia | by rewrite Hc0 |]. run Hs2. run_int.
    destruct (store_uc_at _ _ _ _ _ (idx + 1) 255 Hm2) as (m3 & Hs3 & Hm3);
      [lia | lia | by rewrite Hc1 |]. run Hs3. run_int.
    destruct (store_uc_at _ _ _ _ _ (idx + 2) 0 Hm3) as (m4 & Hs4 & Hm4);
      [lia | lia | by rewrite Hc2 |].
    by exists m4.
Qed.

(** ** The loops *)

(** The inner loop, entered with [r] columns of row [i] left to fill. *)
Lemma fill_row_at (r : nat) : ∀ fuel m0 m b x i j k,
  ints m0 !! x = Some 64 → 0 ≤ i < 64 → j = 64 - Z.of_nat r → 0 ≤ j →
  (r < fuel)%nat →
  at_pos m0 m b (Z.to_nat ((i * 64 + j) * 3)) k →
  ∃ m', fill_row fuel (Ptr b) x i j m = Ok () m' ∧
        at_pos m0 m' b (Z.to_nat ((i * 64 + 64) * 3)) (k + r).
Proof.
  induction r as [|r IH]; intros fuel m0 m b x i j k Hx Hi Hj Hj0 Hfuel Hm;
    (destruct fuel as [|fuel]; [lia|]); cbn [fill_row].
  - run (load_int_at _ _ _ _ _ _ _ Hm Hx).
    destruct (Z.ltb_spec j 64); [lia|].
    exists m. split; [reflexivity|].
    replace j with 64 in Hm by lia. by rewrite Nat.add_0_r.
  - run (load_int_at _ _ _ _ _ _ _ Hm Hx).
    destruct (Z.ltb_spec j 64); [|lia].
    destruct (fill_pixel_at m0 m b x i j k) as (m1 & Hs & Hm1); [done|lia|lia|done|].
    run Hs. run_int.
    destruct (IH fuel m0 m1 b x i (j + 1) (S k)) as (m2 & Hs2 & Hm2);
      [done|lia|lia|lia|lia|done|].
    exists m2. split; [done|].
    by replace (k + S r)%nat with (S k + r)%nat by lia.
Qed.

(** The outer loop, entered with [r] rows left to fill. *)
Lemma fill_rows_at (r : nat) : ∀ fuel_j fuel m0 m b x y i k,
  ints m0 !! x = Some 64 → ints m0 !! y = Some 64 →
  i = 64 - Z.of_nat r → 0 ≤ i →
  (64 < fuel_j)%nat → (r < fuel)%nat →
  at_pos m0 m b (Z.to_nat (i * 64 * 3)) k →
  ∃ m', fill_rows fuel_j fuel (Ptr b) x y i m = Ok () m' ∧
        at_pos m0 m' b (64 * 64 * 3) (k + 64 * r).
Proof.
  induction r as [|r IH]; intros fuel_j fuel m0 m b x y i k Hx Hy Hi Hi0 Hfj Hfuel Hm;
    (destruct fuel as [|fuel]; [lia|]); cbn [fill_rows].
  - run (load_int_at _ _ _ _ _ _ _ Hm Hy).
    destruct (Z.ltb_spec i 64); [lia|].
    exists m. split; [reflexivity|].
    replace i with 64 in Hm by lia. by rewrite Nat.add_0_r.
  - run (load_int_at _ _ _ _ _ _ _ Hm Hy).
    destruct (Z.ltb_spec i 64); [|lia].
    destruct (fill_row_at 64 fuel_j m0 m b x i 0 k) as (m1 & Hs & Hm1);
      [done|lia|lia|lia|lia| |].
    { by replace (i * 64 + 0) with (i * 64) by lia. }
    run Hs. run_int.
    destruct (IH fuel_j fuel m0 m1 b x y (i + 1) (k + 64)%nat) as (m2 & Hs2 & Hm2);
      [done|done|lia|lia|lia|lia| |].
    { by replace ((i + 1) * 64 * 3) with ((i * 64 + 64) * 3) by lia. }
    exists m2. split; [done|].
    by replace (k + 64 * S r)%nat with (k + 64 + 64 * r)%nat by lia.
Qed.

(** ** The whole function *)

Lemma store_int_Mem I h a k p v v0 :
  I !! p = Some v0 →
  store_int p v (Mem I h a k) = Ok () (Mem (<[p := v]> I) h a k).
Proof. intros Hp. unfold store_int. cbn [ints heap avail iterations]. by rewrite Hp. Qed.

Lemma load_int_Mem I h a k p v :
  I !! p = Some v → load_int p (Mem I h a k) = Ok v (Mem I h a k).
Proof. intros Hp. unfold load_int. cbn [ints]. by rewrite Hp. Qed.

Lemma malloc_Mem I h a k size :
  0 ≤ size ≤ a →
  malloc size (Mem I h a k)
  = Ok (Ptr (fresh (dom h)))
       (Mem I (<[fresh (dom h) := replicate (Z.to_nat size) Undef]> h) (a - size) k).
Proof.
  intros [Hlo Hhi]. unfold malloc. cbn [ints heap avail iterations].
  apply Z.leb_le in Hlo. apply Z.leb_le in Hhi. by rewrite Hlo, Hhi.
Qed.

Lemma malloc_NULL I h a k size :
  a < size → malloc size (Mem I h a k) = Ok NULL (Mem I h a k).
Proof.
  intros Hlt. unfold malloc. cbn [avail].
  apply Z.leb_gt in Hlt. by rewrite Hlt, andb_false_r.
Qed.

(** The out-parameters after the three stores of lines 39-41. *)
Lemma out_params_stored (I : gmap positive Z) x y comp :
  comp ≠ x → comp ≠ y →
  let I' := <[comp := 3]> (<[y := 64]> (<[x := 64]> I)) in
  I' !! x = Some 64 ∧ I' !! y = Some 64 ∧ I' !! comp = Some 3.
Proof.
  intros Hcx Hcy. cbv zeta. split; [|split].
  - rewrite lookup_insert_ne by done.
    rewrite lookup_insert. case_decide; [done|]. apply lookup_insert_eq.
  - rewrite lookup_insert_ne by done. apply lookup_insert_eq.
  - apply lookup_insert_eq.
Qed.

(** With live out-parameters, [comp] not aliasing [x] or [y], an allocator
    that can serve 12288 bytes and fuel for 64 iterations and the final
    test of each loop, [stbi_load] returns a fresh block holding the
    complete pattern. *)
Lemma stbi_load_returns fuel filename x y comp req_comp m :
  out_params_ok m x y comp → can_alloc m 12288 → (64 < fuel)%nat →
  ∃ m', stbi_load fuel filename x y comp req_comp m
          = Ok (Ptr (fresh (dom (heap m)))) m' ∧
        ints m' = <[comp := 3]> (<[y := 64]> (<[x := 64]> (ints m))) ∧
        heap m' = <[fresh (dom (heap m)) := filled (64 * 64 * 3)]> (heap m) ∧
        avail m' = avail m - 12288 ∧
        iterations m' = (iterations m + 64 * 64)%nat.
Proof.
  destruct m as [I h a k]. unfold out_params_ok, can_alloc.
  cbn [ints heap avail iterations].
  intros ([vx0 Hx] & [vy0 Hy] & [vc0 Hc] & Hcx & Hcy) Hav Hfuel.
  assert (is_Some (<[x := 64]> I !! y)) as [? Hy']
    by (rewrite lookup_insert; case_decide; eauto).
  assert (is_Some (<[y := 64]> (<[x := 64]> I) !! comp)) as [? Hc']
    by (rewrite !lookup_insert_ne by done; eauto).
  destruct (out_params_stored I x y comp Hcx Hcy) as (HIx & HIy & _).
  unfold stbi_load.
  run (store_int_Mem _ h a k _ 64 _ Hx).
  run (store_int_Mem _ h a k _ 64 _ Hy').
  run (store_int_Mem _ h a k _ 3 _ Hc').
  run (load_int_Mem _ h a k _ _ HIx).
  run (load_int_Mem _ h a k _ _ HIy).
  do 2 run_int.
  change (64 * 64 * 3) with 12288.
  run (malloc_Mem (<[comp := 3]> (<[y := 64]> (<[x := 64]> I))) h a k 12288 Hav).
  set (b := fresh (dom h)).
  destruct (fill_rows_at 64 fuel fuel
              (Mem (<[comp := 3]> (<[y := 64]> (<[x := 64]> I))) h (a - 12288) k)
              (Mem (<[comp := 3]> (<[y := 64]> (<[x := 64]> I)))
                   (<[b := replicate (Z.to_nat 12288) Undef]> h) (a - 12288) k)
              b x y 0 0%nat)
    as (m2 & Hs & (Hi2 & Hh2 & Ha2 & Hk2)); [done|done|lia|lia|lia|lia| |].
  { unfold at_pos. cbn [ints heap avail iterations].
    split_and!; [done| |done|lia].
    change (Z.to_nat (0 * 64 * 3)) with 0%nat.
    rewrite filled_0. by replace (Z.to_nat 12288) with (64 * 64 * 3)%nat by lia. }
  run Hs. exists m2. split; [reflexivity|].
  cbn [ints heap avail iterations] in *.
  repeat split; try done; lia.
Qed.

(** ** Termination without any assumption on the caller *)

Lemma halts_bind {A B} (e : M A) (k : A → M B) m :
  halts_framed e m →
  (∀ a m', e m = Ok a m' → ints m' = ints m → halts_framed (k a) m') →
  halts_framed (bind e k) m.
Proof.
  unfold halts_framed, bind. destruct (e m) as [a m'| |]; try done.
  intros Hi Hk. specialize (Hk a m' eq_refl Hi).
  destruct (k a m'); try done. congruence.
Qed.

Lemma halts_ret {A} (a : A) m : halts_framed (ret a) m.
Proof. reflexivity. Qed.

Lemma halts_tick m : halts_framed tick m.
Proof. reflexivity. Qed.

Lemma halts_load_int p m : halts_framed (load_int p) m.
Proof. unfold halts_framed, load_int. by destruct (ints m !! p). Qed.

Lemma halts_int_result z m : halts_framed (int_result z) m.
Proof. unfold halts_framed, int_result. by destruct (in_int z). Qed.

Lemma halts_int_add a b m : halts_framed (int_add a b) m.
Proof. apply halts_int_result. Qed.

Lemma halts_int_mul a b m : halts_framed (int_mul a b) m.
Proof. apply halts_int_result. Qed.

Lemma halts_int_div a b m : halts_framed (int_div a b) m.
Proof. unfold int_div. destruct (b =? 0); [done|]. apply halts_int_result. Qed.

Lemma halts_int_mod a b m : halts_framed (int_mod a b) m.
Proof.
  unfold halts_framed, int_mod. destruct (b =? 0); [done|].
  by destruct (in_int (a ÷ b)).
Qed.

Lemma halts_store_uc data idx v m : halts_framed (store_uc data idx v) m.
Proof.
  unfold halts_framed, store_uc. destruct data as [|b]; [done|].
  destruct (heap m !! b); [|done].
  by destruct ((0 <=? idx) && (idx <? Z.of_nat (length l))).
Qed.

Lemma halts_malloc size m : halts_framed (malloc size) m.
Proof.
  unfold halts_framed, malloc.
  by destruct ((0 <=? size) && (size <=? avail m)).
Qed.

Ltac halts_step :=
  first [ apply halts_ret | apply halts_tick | apply halts_load_int
        | apply halts_int_add | apply halts_int_mul | apply halts_int_div
        | apply halts_int_mod | apply halts_store_uc | apply halts_malloc ].

Ltac halts_seq :=
  repeat first
    [ halts_step
    | apply halts_bind; [halts_step | intros ? ? _ _]
    | match goal with
      | |- halts_framed (if ?c then _ else _) _ => destruct c
      end ].

Lemma halts_fill_pixel data x i j m : halts_framed (fill_pixel data x i j) m.
Proof. unfold fill_pixel. halts_seq. Qed.

Lemma load_int_inv p m v m' :
  load_int p m = Ok v m' → ints m !! p = Some v ∧ m' = m.
Proof. unfold load_int. destruct (ints m !! p); [|done]. by intros [= -> ->]. Qed.

Lemma int_result_inv z m a m' :
  int_result z m = Ok a m' → a = z ∧ m' = m.
Proof. unfold int_result. destruct (in_int z); [|done]. by intros [= -> ->]. Qed.

Lemma store_int_inv p v m a m' :
  store_int p v m = Ok a m' →
  m' = Mem (<[p := v]> (ints m)) (heap m) (avail m) (iterations m).
Proof. unfold store_int. destruct (ints m !! p); [|done]. by intros [= _ <-]. Qed.

(** The inner loop stops within [v - j] iterations, [v] being the width
    it reads. *)
Lemma halts_fill_row data x i (fuel : nat) : ∀ j m v,
  ints m !! x = Some v → (Z.to_nat (v - j) < fuel)%nat →
  halts_framed (fill_row fuel data x i j) m.
Proof.
  induction fuel as [|fuel IH]; intros j m v Hx Hfuel; [lia|].
  cbn [fill_row].
  apply halts_bind; [halts_step|]. intros vx m1 [Hv ->]%load_int_inv _.
  assert (vx = v) as -> by congruence.
  destruct (Z.ltb_spec j v); [|halts_step].
  apply halts_bind; [apply halts_fill_pixel|]. intros _ m2 _ Hi2.
  apply halts_bind; [halts_step|]. intros j' m3 [-> ->]%int_result_inv _.
  apply (IH _ _ v); [by rewrite Hi2 | lia].
Qed.

(** The outer loop stops within [vy - i] iterations, [vy] being the height
    it reads. *)
Lemma halts_fill_rows data x y (fuel_j fuel : nat) : ∀ i m vx vy,
  ints m !! x = Some vx → ints m !! y = Some vy →
  (Z.to_nat vx < fuel_j)%nat → (Z.to_nat (vy - i) < fuel)%nat →
  halts_framed (fill_rows fuel_j fuel data x y i) m.
Proof.
  induction fuel as [|fuel IH]; intros i m vx vy Hx Hy Hfj Hfuel; [lia|].
  cbn [fill_rows].
  apply halts_bind; [halts_step|]. intros v m1 [Hv ->]%load_int_inv _.
  assert (v = vy) as -> by congruence.
  destruct (Z.ltb_spec i vy); [|halts_step].
  apply halts_bind.
  { apply (halts_fill_row _ _ _ _ _ _ vx); [done|].
    by replace (vx - 0) with vx by lia. }
  intros _ m2 _ Hi2.
  apply halts_bind; [halts_step|]. intros i' m3 [-> ->]%int_result_inv _.
  apply (IH _ _ vx vy); [by rewrite Hi2 | by rewrite Hi2 | done | lia].
Qed.

Lemma bind_not_OutOfFuel {A B} (e : M A) (k : A → M B) m :
  e m ≠ OutOfFuel →
  (∀ a m', e m = Ok a m' → k a m' ≠ OutOfFuel) →
  bind e k m ≠ OutOfFuel.
Proof.
  unfold bind. destruct (e m) as [a m'| |]; [|done..].
  intros _ Hk. by apply Hk.
Qed.

Lemma store_int_not_OutOfFuel p v m : store_int p v m ≠ OutOfFuel.
Proof. unfold store_int. by destruct (ints m !! p). Qed.

(** What lines 39-41 leave in [*x] and [*y], whatever the aliasing. *)
Lemma out_param_64_or_3 (I : gmap positive Z) x y comp p v :
  p = x ∨ p = y →
  <[comp := 3]> (<[y := 64]> (<[x := 64]> I)) !! p = Some v →
  v = 64 ∨ v = 3.
Proof.
  intros Hp. rewrite !lookup_insert.
  repeat case_decide; intros Hv; simplify_eq; eauto.
  destruct Hp; simplify_eq.
Qed.

Lemma stbi_load_halts fuel filename x y comp req_comp m :
  (64 < fuel)%nat →
  stbi_load fuel filename x y comp req_comp m ≠ OutOfFuel.
Proof.
  intros Hfuel. unfold stbi_load.
  apply bind_not_OutOfFuel; [apply store_int_not_OutOfFuel|].
  intros [] m1 H1%store_int_inv.
  apply bind_not_OutOfFuel; [apply store_int_not_OutOfFuel|].
  intros [] m2 H2%store_int_inv.
  apply bind_not_OutOfFuel; [apply store_int_not_OutOfFuel|].
  intros [] m3 H3%store_int_inv.
  assert (Hi3 : ints m3 = <[comp := 3]> (<[y := 64]> (<[x := 64]> (ints m))))
    by (subst; reflexivity).
  clear H1 H2 H3.
  enough (Hh : halts_framed
    (let* vx := load_int x in
     let* vy := load_int y in
     let* t := int_mul vx vy in
     let* size := int_mul t 3 in
     let* data := malloc size in
     fill_rows fuel fuel data x y 0 ;;; ret data) m3).
  { unfold halts_framed in Hh. by destruct (bind _ _ m3). }
  apply halts_bind; [halts_step|]. intros vx m4 [Hvx ->]%load_int_inv _.
  apply halts_bind; [halts_step|]. intros vy m5 [Hvy ->]%load_int_inv _.
  apply halts_bind; [halts_step|]. intros t m6 _ Hi6.
  apply halts_bind; [halts_step|]. intros size m7 _ Hi7.
  apply halts_bind; [halts_step|]. intros data m8 _ Hi8.
  apply halts_bind; [|intros; halts_step].
  assert (vx = 64 ∨ vx = 3)
    by (apply (out_param_64_or_3 (ints m) x y comp x); [by left | by rewrite <- Hi3]).
  assert (vy = 64 ∨ vy = 3)
    by (apply (out_param_64_or_3 (ints m) x y comp y); [by right | by rewrite <- Hi3]).
  apply (halts_fill_rows _ _ _ _ _ _ _ vx vy).
  - by rewrite Hi8, Hi7, Hi6.
  - by rewrite Hi8, Hi7, Hi6.
  - lia.
  - lia.
Qed.

(** ** Allocation failure *)

(** When [malloc] returns the null pointer, the first store of the loop
    body (line 51 or 55) goes through it. *)
Lemma fill_pixel_NULL x i j m :
  ints m !! x = Some 64 → 0 ≤ i < 64 → 0 ≤ j < 64 →
  fill_pixel NULL x i j m = Undefined.
Proof.
  intros Hx Hi Hj. unfold fill_pixel.
  assert (0 ≤ i / 8 < 8) by (split; [apply Z.div_pos|apply Z.div_lt_upper_bound]; lia).
  assert (0 ≤ j / 8 < 8) by (split; [apply Z.div_pos|apply Z.div_lt_upper_bound]; lia).
  unfold bind at 1, tick. 
  erewrite bind_Ok; [|unfold load_int; cbn [ints]; by rewrite Hx].
  do 7 run_int.
  by destruct (_ =? 0).
Qed.

Lemma fill_row_NULL fuel x i m :
  ints m !! x = Some 64 → 0 ≤ i < 64 → (0 < fuel)%nat →
  fill_row fuel NULL x i 0 m = Undefined.
Proof.
  intros Hx Hi Hfuel. destruct fuel as [|fuel]; [lia|]. cbn [fill_row].
  erewrite bind_Ok; [|unfold load_int; by rewrite Hx].
  change (0 <? 64) with true. cbv iota.
  unfold bind. by rewrite fill_pixel_NULL.
Qed.

Lemma fill_rows_NULL fuel_j fuel x y m :
  ints m !! x = Some 64 → ints m !! y = Some 64 →
  (0 < fuel_j)%nat → (0 < fuel)%nat →
  fill_rows fuel_j fuel NULL x y 0 m = Undefined.
Proof.
  intros Hx Hy Hfj Hfuel. destruct fuel as [|fuel]; [lia|]. cbn [fill_rows].
  erewrite bind_Ok; [|unfold load_int; by rewrite Hy].
  change (0 <? 64) with true. cbv iota.
  unfold bind. by rewrite fill_row_NULL.
Qed.

Lemma stbi_load_alloc_failure fuel filename x y comp req_comp m :
  out_params_ok m x y comp → avail m < 12288 → (0 < fuel)%nat →
  stbi_load fuel filename x y comp req_comp m = Undefined.
Proof.
  destruct m as [I h a k]. unfold out_params_ok.
  cbn [ints heap avail iterations].
  intros ([vx0 Hx] & [vy0 Hy] & [vc0 Hc] & Hcx & Hcy) Hav Hfuel.
  assert (is_Some (<[x := 64]> I !! y)) as [? Hy']
    by (rewrite lookup_insert; case_decide; eauto).
  assert (is_Some (<[y := 64]> (<[x := 64]> I) !! comp)) as [? Hc']
    by (rewrite !lookup_insert_ne by done; eauto).
  destruct (out_params_stored I x y comp Hcx Hcy) as (HIx & HIy & _).
  unfold stbi_load.
  run (store_int_Mem _ h a k _ 64 _ Hx).
  run (store_int_Mem _ h a k _ 64 _ Hy').
  run (store_int_Mem _ h a k _ 3 _ Hc').
  run (load_int_Mem _ h a k _ _ HIx).
  run (load_int_Mem _ h a k _ _ HIy).
  do 2 run_int.
  change (64 * 64 * 3) with 12288.
  run (malloc_NULL (<[comp := 3]> (<[y := 64]> (<[x := 64]> I))) h a k 12288 Hav).
  unfold bind. by rewrite fill_rows_NULL.
Qed.

(** ** The complete block *)

Lemma full_lookup i j k :
  0 ≤ i < 64 → 0 ≤ j < 64 → 0 ≤ k < 3 →
  filled (64 * 64 * 3) !! Z.to_nat ((i * 64 + j) * 3 + k)
  = Some (Val (channel k (colour i j))).
Proof.
  intros Hi Hj Hk. rewrite filled_lookup by lia.
  by rewrite pattern_cell_at by lia.
Qed.

Lemma full_pixel row col :
  0 ≤ row < 64 → 0 ≤ col < 64 →
  pixel 64 (filled (64 * 64 * 3)) row col = Some (colour row col).
Proof.
  intros Hr Hc. unfold pixel.
  pose proof (full_lookup row col 0 Hr Hc ltac:(lia)) as H0.
  pose proof (full_lookup row col 1 Hr Hc ltac:(lia)) as H1.
  pose proof (full_lookup row col 2 Hr Hc ltac:(lia)) as H2.
  rewrite Z.add_0_r in H0.
  rewrite Z2Nat.inj_add in H1, H2 by lia.
  change (Z.to_nat 1) with 1%nat in H1. change (Z.to_nat 2) with 2%nat in H2.
  rewrite H0, H1, H2. unfold colour, channel.
  by destruct (red_tile row col).
Qed.

Lemma full_no_Undef : Undef ∉ filled (64 * 64 * 3).
Proof.
  intros [o Ho]%list_elem_of_lookup.
  assert (o < 64 * 64 * 3)%nat as Hlt.
  { apply lookup_lt_Some in Ho. by rewrite filled_length in Ho. }
  by rewrite filled_lookup in Ho.
Qed.

(** The complete block is a list of written bytes. *)
Lemma filled_bytes :
  Val <$> (cell_byte <$> filled (64 * 64 * 3)) = filled (64 * 64 * 3).
Proof.
  rewrite <- list_fmap_compose. rewrite <- (list_fmap_id (filled _)) at 2.
  apply list_fmap_ext. intros o c Hc.
  assert (o < 64 * 64 * 3)%nat as Hlt.
  { apply lookup_lt_Some in Hc. by rewrite filled_length in Hc. }
  rewrite filled_lookup in Hc by done. by injection Hc as <-.
Qed.

Lemma filled_byte_range :
  Forall (λ v, 0 ≤ v < 256) (cell_byte <$> filled (64 * 64 * 3)).
Proof.
  apply Forall_fmap, Forall_lookup. intros o c Hc.
  assert (o < 64 * 64 * 3)%nat as Hlt.
  { apply lookup_lt_Some in Hc. by rewrite filled_length in Hc. }
  rewrite filled_lookup in Hc by done. injection Hc as <-.
  unfold pattern_cell. cbn [cell_byte compose].
  repeat match goal with |- context [if ?c then _ else _] => destruct c end; lia.
Qed.

(** The successful return, with everything a caller can observe. *)
Lemma stbi_load_ok fuel filename x y comp req_comp m :
  out_params_ok m x y comp → can_alloc m 12288 → (64 < fuel)%nat →
  ∃ b m', stbi_load fuel filename x y comp req_comp m = Ok (Ptr b) m' ∧
          heap m !! b = None ∧
          heap m' !! b = Some (filled (64 * 64 * 3)) ∧
          ints m' !! x = Some 64 ∧ ints m' !! y = Some 64 ∧
          ints m' !! comp = Some 3 ∧
          iterations m' = (iterations m + 64 * 64)%nat.
Proof.
  intros Hout Hav Hfuel.
  destruct (stbi_load_returns fuel filename x y comp req_comp m Hout Hav Hfuel)
    as (m' & Hrun & Hi & Hh & _ & Hk).
  destruct Hout as (_ & _ & _ & Hcx & Hcy).
  destruct (out_params_stored (ints m) x y comp Hcx Hcy) as (HIx & HIy & HIc).
  exists (fresh (dom (heap m))), m'. rewrite Hi, Hh.
  split_and!; try done.
  - apply not_elem_of_dom, is_fresh.
  - apply lookup_insert_eq.
Qed.

Lemma colour_nonneg row col :
  0 ≤ row → 0 ≤ col →
  colour row col
  = if (row / 8 + col / 8) mod 2 =? 0 then (255, 0, 0) else (0, 255, 0).
Proof. intros Hr Hc. unfold colour. by rewrite red_tile_nonneg. Qed.

Lemma colour_transpose i j : colour i j = colour j i.
Proof. unfold colour, red_tile. by rewrite Z.add_comm. Qed.

Lemma caller_mem_ok : out_params_ok caller_mem 1 2 3.
Proof. unfold out_params_ok. split_and!; by eauto. Qed.

Lemma caller_mem_alloc : can_alloc caller_mem 12288.
Proof. unfold can_alloc. simpl. lia. Qed.

(** ** Why the out-parameters must not alias, and the release *)

(** A caller that passes the same object for [x] and [comp] gets width 3:
    line 41 overwrites what line 39 stored, and the loops fill 64 rows of
    3 pixels. *)
Remark stbi_load_aliased_comp :
  ∃ b m', stbi_load 65 "image.png" 1 2 1 0 caller_mem = Ok (Ptr b) m' ∧
          ints m' !! 1%positive = Some 3 ∧ ints m' !! 2%positive = Some 64 ∧
          iterations m' = (64 * 3)%nat.
Proof.
  assert (Hrun :
    match stbi_load 65 "image.png" 1 2 1 0 caller_mem with
    | Ok (Ptr _) m' =>
        (ints m' !! 1%positive, ints m' !! 2%positive, iterations m')
        = (Some 3, Some 64, (64 * 3)%nat)
    | _ => False
    end) by (vm_compute; reflexivity).
  destruct (stbi_load 65 "image.png" 1 2 1 0 caller_mem) as [[|b] m'| |];
    try done.
  injection Hrun as H1 H2 H3. by exists b, m'.
Qed.

(** [stbi_image_free] releases the block [stbi_load] returned, and a
    second release of the same pointer is undefined. *)
Lemma stbi_image_free_once fuel filename x y comp req_comp m :
  out_params_ok m x y comp → can_alloc m 12288 → (64 < fuel)%nat →
  ∃ b m' m'',
    stbi_load fuel filename x y comp req_comp m = Ok (Ptr b) m' ∧
    stbi_image_free (Ptr b) m' = Ok () m'' ∧
    heap m'' = heap m ∧
    stbi_image_free (Ptr b) m'' = Undefined.
Proof.
  intros Hout Hav Hfuel.
  destruct (stbi_load_returns fuel filename x y comp req_comp m Hout Hav Hfuel)
    as (m' & Hrun & _ & Hh & _).
  set (b := fresh (dom (heap m))) in *.
  assert (Hb : heap m !! b = None) by apply not_elem_of_dom, is_fresh.
  eexists b, m', _. split; [done|].
  unfold stbi_image_free, free. rewrite Hh, lookup_insert_eq.
  split; [reflexivity|]. cbn [heap].
  rewrite delete_insert_eq, delete_id by done.
  split; [done|]. by rewrite Hb.
Qed.

(** * The specification, claim by claim *)

(** C1: for every pixel coordinate [(row, col)] with [0 <= row, col < 64],
    the buffer returned by [stbi_load] holds the pixel [(255, 0, 0)] if
    [(row / 8 + col / 8) mod 2 = 0] and [(0, 255, 0)] otherwise. *)
Theorem stbi_load_checkerboard fuel filename x y comp req_comp m :
  out_params_ok m x y comp → can_alloc m 12288 → (64 < fuel)%nat →
  ∃ b m' buf,
    stbi_load fuel filename x y comp req_comp m = Ok (Ptr b) m' ∧
    heap m' !! b = Some buf ∧
    ∀ row col, 0 ≤ row < 64 → 0 ≤ col < 64 →
      pixel 64 buf row col
      = Some (if (row / 8 + col / 8) mod 2 =? 0 then (255, 0, 0) else (0, 255, 0)).
Proof.
  intros Hout Hav Hfuel.
  destruct (stbi_load_ok fuel filename x y comp req_comp m Hout Hav Hfuel)
    as (b & m' & Hrun & _ & Hbuf & _).
  exists b, m', (filled (64 * 64 * 3)). split_and!; [done..|].
  intros row col Hr Hc. rewrite full_pixel by done.
  by rewrite colour_nonneg by lia.
Qed.

Lemma stbi_load_checkerboard_witness :
  out_params_ok caller_mem 1 2 3 ∧ can_alloc caller_mem 12288 ∧ (64 < 65)%nat ∧
  ∃ b m' buf,
    stbi_load 65 "image.png" 1 2 3 0 caller_mem = Ok (Ptr b) m' ∧
    heap m' !! b = Some buf ∧
    ∀ row col, 0 ≤ row < 64 → 0 ≤ col < 64 →
      pixel 64 buf row col
      = Some (if (row / 8 + col / 8) mod 2 =? 0 then (255, 0, 0) else (0, 255, 0)).
Proof.
  split; [exact caller_mem_ok|]. split; [exact caller_mem_alloc|].
  split; [lia|].
  apply stbi_load_checkerboard; [exact caller_mem_ok|exact caller_mem_alloc|lia].
Defined.

(** C2: for every path and every [req_comp], [stbi_load] returns
    width 64, height 64 and channel count 3 through its out-parameters. *)
Theorem stbi_load_dimensions fuel filename x y comp req_comp m :
  out_params_ok m x y comp → can_alloc m 12288 → (64 < fuel)%nat →
  ∃ b m',
    stbi_load fuel filename x y comp req_comp m = Ok (Ptr b) m' ∧
    ints m' !! x = Some 64 ∧ ints m' !! y = Some 64 ∧ ints m' !! comp = Some 3.
Proof.
  intros Hout Hav Hfuel.
  destruct (stbi_load_ok fuel filename x y comp req_comp m Hout Hav Hfuel)
    as (b & m' & Hrun & _ & _ & Hx & Hy & Hc & _).
  by exists b, m'.
Qed.

Lemma stbi_load_dimensions_witness :
  out_params_ok caller_mem 1 2 3 ∧ can_alloc caller_mem 12288 ∧ (64 < 65)%nat ∧
  ∃ b m',
    stbi_load 65 "image.png" 1 2 3 1 caller_mem = Ok (Ptr b) m' ∧
    ints m' !! 1%positive = Some 64 ∧ ints m' !! 2%positive = Some 64 ∧
    ints m' !! 3%positive = Some 3.
Proof.
  split; [exact caller_mem_ok|]. split; [exact caller_mem_alloc|].
  split; [lia|].
  apply stbi_load_dimensions; [exact caller_mem_ok|exact caller_mem_alloc|lia].
Defined.

(** C3: after a successful call the length of the returned buffer is
    width * height * channel count, which is 64 * 64 * 3 = 12288 bytes. *)
Theorem stbi_load_buffer_length fuel filename x y comp req_comp m :
  out_params_ok m x y comp → can_alloc m 12288 → (64 < fuel)%nat →
  ∃ b m' buf w h c,
    stbi_load fuel filename x y comp req_comp m = Ok (Ptr b) m' ∧
    heap m' !! b = Some buf ∧
    ints m' !! x = Some w ∧ ints m' !! y = Some h ∧ ints m' !! comp = Some c ∧
    Z.of_nat (length buf) = w * h * c ∧
    Z.of_nat (length buf) = 12288.
Proof.
  intros Hout Hav Hfuel.
  destruct (stbi_load_ok fuel filename x y comp req_comp m Hout Hav Hfuel)
    as (b & m' & Hrun & _ & Hbuf & Hx & Hy & Hc & _).
  exists b, m', (filled (64 * 64 * 3)), 64, 64, 3.
  rewrite filled_length by lia. split_and!; try lia; done.
Qed.

Lemma stbi_load_buffer_length_witness :
  out_params_ok caller_mem 1 2 3 ∧ can_alloc caller_mem 12288 ∧ (64 < 65)%nat ∧
  ∃ b m' buf w h c,
    stbi_load 65 "image.png" 1 2 3 3 caller_mem = Ok (Ptr b) m' ∧
    heap m' !! b = Some buf ∧
    ints m' !! 1%positive = Some w ∧ ints m' !! 2%positive = Some h ∧
    ints m' !! 3%positive = Some c ∧
    Z.of_nat (length buf) = w * h * c ∧
    Z.of_nat (length buf) = 12288.
Proof.
  split; [exact caller_mem_ok|]. split; [exact caller_mem_alloc|].
  split; [lia|].
  apply stbi_load_buffer_length; [exact caller_mem_ok|exact caller_mem_alloc|lia].
Defined.

(** C4: two calls of [stbi_load], whatever their paths, their [req_comp]
    and the memories they start from, return byte-identical buffers (the
    same 12288 written bytes, none of them indeterminate) and the same
    width, height and channel count. *)
Theorem stbi_load_input_independent
    fuel1 filename1 x1 y1 comp1 req_comp1 m1
    fuel2 filename2 x2 y2 comp2 req_comp2 m2 :
  out_params_ok m1 x1 y1 comp1 → can_alloc m1 12288 → (64 < fuel1)%nat →
  out_params_ok m2 x2 y2 comp2 → can_alloc m2 12288 → (64 < fuel2)%nat →
  ∃ b1 m1' b2 m2' bytes,
    stbi_load fuel1 filename1 x1 y1 comp1 req_comp1 m1 = Ok (Ptr b1) m1' ∧
    stbi_load fuel2 filename2 x2 y2 comp2 req_comp2 m2 = Ok (Ptr b2) m2' ∧
    heap m1' !! b1 = Some (Val <$> bytes) ∧
    heap m2' !! b2 = Some (Val <$> bytes) ∧
    Z.of_nat (length bytes) = 12288 ∧
    Forall (λ v, 0 ≤ v < 256) bytes ∧
    (Undef ∉ (Val <$> bytes)) ∧
    ints m1' !! x1 = Some 64 ∧ ints m2' !! x2 = Some 64 ∧
    ints m1' !! y1 = Some 64 ∧ ints m2' !! y2 = Some 64 ∧
    ints m1' !! comp1 = Some 3 ∧ ints m2' !! comp2 = Some 3.
Proof.
  intros Hout1 Hav1 Hfuel1 Hout2 Hav2 Hfuel2.
  destruct (stbi_load_ok fuel1 filename1 x1 y1 comp1 req_comp1 m1 Hout1 Hav1 Hfuel1)
    as (b1 & m1' & Hrun1 & _ & Hbuf1 & Hx1 & Hy1 & Hc1 & _).
  destruct (stbi_load_ok fuel2 filename2 x2 y2 comp2 req_comp2 m2 Hout2 Hav2 Hfuel2)
    as (b2 & m2' & Hrun2 & _ & Hbuf2 & Hx2 & Hy2 & Hc2 & _).
  exists b1, m1', b2, m2', (cell_byte <$> filled (64 * 64 * 3)).
  rewrite filled_bytes, length_fmap, filled_length by lia.
  split_and!; first [done | lia | apply full_no_Undef | apply filled_byte_range].
Qed.

Lemma stbi_load_input_independent_witness :
  out_params_ok caller_mem 1 2 3 ∧ can_alloc caller_mem 12288 ∧ (64 < 65)%nat ∧
  out_params_ok caller_mem 3 2 1 ∧ can_alloc caller_mem 12288 ∧ (64 < 70)%nat ∧
  ∃ b1 m1' b2 m2' bytes,
    stbi_load 65 "a.png" 1 2 3 1 caller_mem = Ok (Ptr b1) m1' ∧
    stbi_load 70 "b.jpg" 3 2 1 4 caller_mem = Ok (Ptr b2) m2' ∧
    heap m1' !! b1 = Some (Val <$> bytes) ∧
    heap m2' !! b2 = Some (Val <$> bytes) ∧
    Z.of_nat (length bytes) = 12288 ∧
    Forall (λ v, 0 ≤ v < 256) bytes ∧
    (Undef ∉ (Val <$> bytes)) ∧
    ints m1' !! 1%positive = Some 64 ∧ ints m2' !! 3%positive = Some 64 ∧
    ints m1' !! 2%positive = Some 64 ∧ ints m2' !! 2%positive = Some 64 ∧
    ints m1' !! 3%positive = Some 3 ∧ ints m2' !! 1%positive = Some 3.
Proof.
  assert (Hout2 : out_params_ok caller_mem 3 2 1)
    by (unfold out_params_ok; split_and!; by eauto).
  split; [exact caller_mem_ok|]. split; [exact caller_mem_alloc|].
  split; [lia|].
  split; [exact Hout2|]. split; [exact caller_mem_alloc|].
  split; [lia|].
  apply stbi_load_input_independent;
    [exact caller_mem_ok|exact caller_mem_alloc|lia
    |exact Hout2|exact caller_mem_alloc|lia].
Defined.

(** C5: the call [stbi_load("nonexistent.png", &x, &y, &comp, 4)]
    succeeds and returns a 64x64x3 buffer whose pixel (0,0) is
    (255,0,0), pixel (8,0) is (0,255,0) and pixel (8,8) is (255,0,0). *)
Theorem stbi_load_nonexistent_png fuel x y comp m :
  out_params_ok m x y comp → can_alloc m 12288 → (64 < fuel)%nat →
  ∃ b m' buf,
    stbi_load fuel "nonexistent.png" x y comp 4 m = Ok (Ptr b) m' ∧
    heap m' !! b = Some buf ∧
    ints m' !! x = Some 64 ∧ ints m' !! y = Some 64 ∧ ints m' !! comp = Some 3 ∧
    Z.of_nat (length buf) = 64 * 64 * 3 ∧
    pixel 64 buf 0 0 = Some (255, 0, 0) ∧
    pixel 64 buf 8 0 = Some (0, 255, 0) ∧
    pixel 64 buf 8 8 = Some (255, 0, 0).
Proof.
  intros Hout Hav Hfuel.
  destruct (stbi_load_ok fuel "nonexistent.png" x y comp 4 m Hout Hav Hfuel)
    as (b & m' & Hrun & _ & Hbuf & Hx & Hy & Hc & _).
  exists b, m', (filled (64 * 64 * 3)).
  rewrite filled_length by lia. rewrite !full_pixel by lia.
  split_and!; try lia; done.
Qed.

Lemma stbi_load_nonexistent_png_witness :
  out_params_ok caller_mem 1 2 3 ∧ can_alloc caller_mem 12288 ∧ (64 < 65)%nat ∧
  ∃ b m' buf,
    stbi_load 65 "nonexistent.png" 1 2 3 4 caller_mem = Ok (Ptr b) m' ∧
    heap m' !! b = Some buf ∧
    ints m' !! 1%positive = Some 64 ∧ ints m' !! 2%positive = Some 64 ∧
    ints m' !! 3%positive = Some 3 ∧
    Z.of_nat (length buf) = 64 * 64 * 3 ∧
    pixel 64 buf 0 0 = Some (255, 0, 0) ∧
    pixel 64 buf 8 0 = Some (0, 255, 0) ∧
    pixel 64 buf 8 8 = Some (255, 0, 0).
Proof.
  split; [exact caller_mem_ok|]. split; [exact caller_mem_alloc|].
  split; [lia|].
  apply stbi_load_nonexistent_png; [exact caller_mem_ok|exact caller_mem_alloc|lia].
Defined.

(** C6, as the specification states it, fails: the block is not
    zero-initialized. Lines 39-44, run in [caller_mem] with the
    out-parameters at 1, 2 and 3, obtain from [malloc] a block of 12288
    bytes whose content is indeterminate; its first byte is not 0. *)
Lemma malloc_block_not_zeroed :
  ∃ b m1 buf,
    (store_int 1 64 ;;;
     store_int 2 64 ;;;
     store_int 3 3 ;;;
     let* vx := load_int 1 in
     let* vy := load_int 2 in
     let* t := int_mul vx vy in
     let* size := int_mul t 3 in
     malloc size) caller_mem = Ok (Ptr b) m1 ∧
    heap m1 !! b = Some buf ∧
    Z.of_nat (length buf) = 12288 ∧
    buf !! 0%nat = Some Undef ∧
    buf !! 0%nat ≠ Some (Val 0).
Proof.
  exists 1%positive,
    (Mem {[1%positive := 64; 2%positive := 64; 3%positive := 3]}
         {[1%positive := replicate (Z.to_nat 12288) Undef]} 0 0),
    (replicate (Z.to_nat 12288) Undef).
  split; [vm_compute; reflexivity|].
  split; [apply lookup_singleton_eq|].
  split; [rewrite length_replicate; lia|].
  split; [|discriminate].
  apply lookup_replicate_2. lia.
Qed.

(** C6, amended: the buffer returned by [stbi_load] is a new block, which
    [malloc] hands out with indeterminate content, and is then written in
    full: every one of its 12288 bytes is the byte the pattern rule gives
    to its offset, and no byte of it is left unwritten. *)
Theorem stbi_load_fully_written fuel filename x y comp req_comp m :
  out_params_ok m x y comp → can_alloc m 12288 → (64 < fuel)%nat →
  ∃ b m' buf,
    stbi_load fuel filename x y comp req_comp m = Ok (Ptr b) m' ∧
    heap m !! b = None ∧
    heap m' !! b = Some buf ∧
    (∀ b', b' ≠ b → heap m' !! b' = heap m !! b') ∧
    Z.of_nat (length buf) = 12288 ∧
    (∀ o, (Z.of_nat o < 12288) → buf !! o = Some (pattern_cell o)) ∧
    (∀ i j k, 0 ≤ i < 64 → 0 ≤ j < 64 → 0 ≤ k < 3 →
       pattern_cell (Z.to_nat ((i * 64 + j) * 3 + k))
       = Val (channel k (if (i / 8 + j / 8) mod 2 =? 0
                         then (255, 0, 0) else (0, 255, 0)))) ∧
    Undef ∉ buf.
Proof.
  intros Hout Hav Hfuel.
  destruct (stbi_load_returns fuel filename x y comp req_comp m Hout Hav Hfuel)
    as (m' & Hrun & _ & Hh & _).
  exists (fresh (dom (heap m))), m', (filled (64 * 64 * 3)).
  rewrite Hh, filled_length by lia. split_and!.
  - done.
  - apply not_elem_of_dom, is_fresh.
  - apply lookup_insert_eq.
  - intros b' Hb'. by rewrite lookup_insert_ne.
  - lia.
  - intros o Ho. apply filled_lookup. lia.
  - intros i j k Hi Hj Hk. rewrite pattern_cell_at by lia.
    by rewrite colour_nonneg by lia.
  - apply full_no_Undef.
Qed.

Lemma stbi_load_fully_written_witness :
  out_params_ok caller_mem 1 2 3 ∧ can_alloc caller_mem 12288 ∧ (64 < 65)%nat ∧
  ∃ b m' buf,
    stbi_load 65 "image.png" 1 2 3 3 caller_mem = Ok (Ptr b) m' ∧
    heap caller_mem !! b = None ∧
    heap m' !! b = Some buf ∧
    (∀ b', b' ≠ b → heap m' !! b' = heap caller_mem !! b') ∧
    Z.of_nat (length buf) = 12288 ∧
    (∀ o, (Z.of_nat o < 12288) → buf !! o = Some (pattern_cell o)) ∧
    (∀ i j k, 0 ≤ i < 64 → 0 ≤ j < 64 → 0 ≤ k < 3 →
       pattern_cell (Z.to_nat ((i * 64 + j) * 3 + k))
       = Val (channel k (if (i / 8 + j / 8) mod 2 =? 0
                         then (255, 0, 0) else (0, 255, 0)))) ∧
    Undef ∉ buf.
Proof.
  split; [exact caller_mem_ok|]. split; [exact caller_mem_alloc|].
  split; [lia|].
  apply stbi_load_fully_written; [exact caller_mem_ok|exact caller_mem_alloc|lia].
Defined.

(** C7: [stbi_load] reports no error, whatever the path and [req_comp]:
    when the allocation succeeds it returns a non-null pointer to a live
    block of 12288 written bytes; the failure of the allocation, which the
    code does not check, is the one fault, and it is not reported either:
    the loop then writes through the null pointer. *)
Theorem stbi_load_never_fails fuel filename x y comp req_comp m :
  out_params_ok m x y comp → (64 < fuel)%nat →
  (can_alloc m 12288 →
   ∃ b m' buf,
     stbi_load fuel filename x y comp req_comp m = Ok (Ptr b) m' ∧
     heap m' !! b = Some buf ∧
     Z.of_nat (length buf) = 12288 ∧
     Undef ∉ buf) ∧
  (¬ can_alloc m 12288 →
   stbi_load fuel filename x y comp req_comp m = Undefined).
Proof.
  intros Hout Hfuel. split.
  - intros Hav.
    destruct (stbi_load_ok fuel filename x y comp req_comp m Hout Hav Hfuel)
      as (b & m' & Hrun & _ & Hbuf & _).
    exists b, m', (filled (64 * 64 * 3)).
    rewrite filled_length by lia.
    split_and!; [done|done|lia|apply full_no_Undef].
  - intros Hav. apply stbi_load_alloc_failure; [done| |lia].
    unfold can_alloc in Hav. lia.
Qed.

Lemma stbi_load_never_fails_witness :
  out_params_ok caller_mem 1 2 3 ∧ (64 < 65)%nat ∧
  can_alloc caller_mem 12288 ∧
  (∃ b m' buf,
     stbi_load 65 "missing.png" 1 2 3 (-7) caller_mem = Ok (Ptr b) m' ∧
     heap m' !! b = Some buf ∧
     Z.of_nat (length buf) = 12288 ∧
     Undef ∉ buf) ∧
  stbi_load 65 "missing.png" 1 2 3 (-7) (Mem (ints caller_mem) ∅ 12287 0)
  = Undefined.
Proof.
  split; [exact caller_mem_ok|]. split; [lia|].
  split; [exact caller_mem_alloc|]. split.
  - apply (stbi_load_never_fails 65 "missing.png" 1 2 3 (-7) caller_mem);
      [exact caller_mem_ok|lia|exact caller_mem_alloc].
  - apply (stbi_load_never_fails 65 "missing.png" 1 2 3 (-7)
             (Mem (ints caller_mem) ∅ 12287 0));
      [exact caller_mem_ok|lia|].
    unfold can_alloc. simpl. lia.
Defined.

(** C8: [stbi_load] terminates on every input: fuel for 64 iterations
    and the final test of each loop is enough whatever the arguments and
    the memory, and a call that returns has executed the body of the fill
    loop exactly 64 * 64 times. *)
Theorem stbi_load_terminates fuel filename x y comp req_comp m :
  (64 < fuel)%nat →
  stbi_load fuel filename x y comp req_comp m ≠ OutOfFuel ∧
  (out_params_ok m x y comp → can_alloc m 12288 →
   ∃ b m',
     stbi_load fuel filename x y comp req_comp m = Ok (Ptr b) m' ∧
     iterations m' = (iterations m + 64 * 64)%nat).
Proof.
  intros Hfuel. split; [by apply stbi_load_halts|].
  intros Hout Hav.
  destruct (stbi_load_ok fuel filename x y comp req_comp m Hout Hav Hfuel)
    as (b & m' & Hrun & _ & _ & _ & _ & _ & Hk).
  by exists b, m'.
Qed.

Lemma stbi_load_terminates_witness :
  (64 < 65)%nat ∧
  stbi_load 65 "image.png" 1 2 3 0 caller_mem ≠ OutOfFuel ∧
  out_params_ok caller_mem 1 2 3 ∧ can_alloc caller_mem 12288 ∧
  ∃ b m',
    stbi_load 65 "image.png" 1 2 3 0 caller_mem = Ok (Ptr b) m' ∧
    iterations m' = (iterations caller_mem + 64 * 64)%nat.
Proof.
  split; [lia|]. split; [apply stbi_load_terminates; lia|].
  split; [exact caller_mem_ok|]. split; [exact caller_mem_alloc|].
  apply (stbi_load_terminates 65 "image.png" 1 2 3 0 caller_mem);
    [lia|exact caller_mem_ok|exact caller_mem_alloc].
Defined.

(** C9: the returned buffer is row-major and channel-interleaved: for
    every row [i] and column [j] below 64 and every channel [k] below 3,
    the byte at offset [(i * 64 + j) * 3 + k] is channel [k] of the colour
    of pixel [(i, j)]; and every offset of the buffer is of this form. *)
Theorem stbi_load_layout fuel filename x y comp req_comp m :
  out_params_ok m x y comp → can_alloc m 12288 → (64 < fuel)%nat →
  ∃ b m' buf,
    stbi_load fuel filename x y comp req_comp m = Ok (Ptr b) m' ∧
    heap m' !! b = Some buf ∧
    (∀ i j k, 0 ≤ i < 64 → 0 ≤ j < 64 → 0 ≤ k < 3 →
       buf !! Z.to_nat ((i * 64 + j) * 3 + k) = Some (Val (channel k (colour i j)))) ∧
    (∀ o, (o < length buf)%nat →
       ∃ i j k, 0 ≤ i < 64 ∧ 0 ≤ j < 64 ∧ 0 ≤ k < 3 ∧
                o = Z.to_nat ((i * 64 + j) * 3 + k)).
Proof.
  intros Hout Hav Hfuel.
  destruct (stbi_load_ok fuel filename x y comp req_comp m Hout Hav Hfuel)
    as (b & m' & Hrun & _ & Hbuf & _).
  exists b, m', (filled (64 * 64 * 3)). split_and!; [done..| |].
  - intros i j k Hi Hj Hk. by apply full_lookup.
  - intros o Ho. rewrite filled_length in Ho by lia.
    exists (Z.of_nat o / 3 / 64), ((Z.of_nat o / 3) mod 64), (Z.of_nat o mod 3).
    pose proof (Z.mod_pos_bound (Z.of_nat o) 3 ltac:(lia)).
    pose proof (Z.mod_pos_bound (Z.of_nat o / 3) 64 ltac:(lia)).
    pose proof (Z.div_mod (Z.of_nat o) 3 ltac:(lia)).
    pose proof (Z.div_mod (Z.of_nat o / 3) 64 ltac:(lia)).
    split_and!; lia.
Qed.

Lemma stbi_load_layout_witness :
  out_params_ok caller_mem 1 2 3 ∧ can_alloc caller_mem 12288 ∧ (64 < 65)%nat ∧
  ∃ b m' buf,
    stbi_load 65 "image.png" 1 2 3 0 caller_mem = Ok (Ptr b) m' ∧
    heap m' !! b = Some buf ∧
    (∀ i j k, 0 ≤ i < 64 → 0 ≤ j < 64 → 0 ≤ k < 3 →
       buf !! Z.to_nat ((i * 64 + j) * 3 + k) = Some (Val (channel k (colour i j)))) ∧
    (∀ o, (o < length buf)%nat →
       ∃ i j k, 0 ≤ i < 64 ∧ 0 ≤ j < 64 ∧ 0 ≤ k < 3 ∧
                o = Z.to_nat ((i * 64 + j) * 3 + k)).
Proof.
  split; [exact caller_mem_ok|]. split; [exact caller_mem_alloc|].
  split; [lia|].
  apply stbi_load_layout; [exact caller_mem_ok|exact caller_mem_alloc|lia].
Defined.

(** C10: the image is symmetric under transposition: for all [i], [j]
    below 64, the three channel bytes of pixel [(i, j)] are written and
    equal the three channel bytes of pixel [(j, i)]. *)
Theorem stbi_load_transpose_symmetric fuel filename x y comp req_comp m :
  out_params_ok m x y comp → can_alloc m 12288 → (64 < fuel)%nat →
  ∃ b m' buf,
    stbi_load fuel filename x y comp req_comp m = Ok (Ptr b) m' ∧
    heap m' !! b = Some buf ∧
    ∀ i j, 0 ≤ i < 64 → 0 ≤ j < 64 →
      is_Some (pixel 64 buf i j) ∧
      pixel 64 buf i j = pixel 64 buf j i ∧
      ∀ k, 0 ≤ k < 3 →
        buf !! Z.to_nat ((i * 64 + j) * 3 + k) = buf !! Z.to_nat ((j * 64 + i) * 3 + k).
Proof.
  intros Hout Hav Hfuel.
  destruct (stbi_load_ok fuel filename x y comp req_comp m Hout Hav Hfuel)
    as (b & m' & Hrun & _ & Hbuf & _).
  exists b, m', (filled (64 * 64 * 3)). split_and!; [done..|].
  intros i j Hi Hj. rewrite !full_pixel by done. split_and!.
  - by eexists.
  - by rewrite colour_transpose.
  - intros k Hk. rewrite !full_lookup by done. by rewrite colour_transpose.
Qed.

Lemma stbi_load_transpose_symmetric_witness :
  out_params_ok caller_mem 1 2 3 ∧ can_alloc caller_mem 12288 ∧ (64 < 65)%nat ∧
  ∃ b m' buf,
    stbi_load 65 "image.png" 1 2 3 0 caller_mem = Ok (Ptr b) m' ∧
    heap m' !! b = Some buf ∧
    ∀ i j, 0 ≤ i < 64 → 0 ≤ j < 64 →
      is_Some (pixel 64 buf i j) ∧
      pixel 64 buf i j = pixel 64 buf j i ∧
      ∀ k, 0 ≤ k < 3 →
        buf !! Z.to_nat ((i * 64 + j) * 3 + k) = buf !! Z.to_nat ((j * 64 + i) * 3 + k).
Proof.
  split; [exact caller_mem_ok|]. split; [exact caller_mem_alloc|].
  split; [lia|].
  apply stbi_load_transpose_symmetric;
    [exact caller_mem_ok|exact caller_mem_alloc|lia].
Defined.

(** * Beyond the specification *)

(** ** The loops on a block of any content and an image of any size *)

Lemma overwritten_length w l0 n :
  (n ≤ length l0)%nat → length (overwritten w l0 n) = length l0.
Proof.
  intros Hn. unfold overwritten.
  rewrite length_app, length_fmap, length_seq, length_drop. lia.
Qed.

Lemma overwritten_write w l0 n :
  (n < length l0)%nat →
  <[n := pattern_cell_w w n]> (overwritten w l0 n) = overwritten w l0 (S n).
Proof.
  intros Hn. unfold overwritten.
  destruct (lookup_lt_is_Some_2 l0 n Hn) as [c Hc].
  rewrite insert_app_r_alt by (rewrite length_fmap, length_seq; lia).
  rewrite length_fmap, length_seq, Nat.sub_diag.
  rewrite (drop_S l0 c n Hc).
  rewrite seq_S, fmap_app, <- app_assoc. reflexivity.
Qed.

Lemma overwritten_lookup w l0 n o :
  (o < n)%nat → overwritten w l0 n !! o = Some (pattern_cell_w w o).
Proof.
  intros Ho. unfold overwritten.
  rewrite lookup_app_l by (rewrite length_fmap, length_seq; lia).
  rewrite list_lookup_fmap, lookup_seq_lt by lia. reflexivity.
Qed.

Lemma overwritten_lookup_ge w l0 n o :
  (n ≤ o)%nat → overwritten w l0 n !! o = l0 !! o.
Proof.
  intros Ho. unfold overwritten.
  rewrite lookup_app_r by (rewrite length_fmap, length_seq; lia).
  rewrite length_fmap, length_seq, lookup_drop. f_equal. lia.
Qed.

Lemma pattern_cell_w_at w i j k :
  0 ≤ i → 0 ≤ j < w → 0 ≤ k < 3 →
  pattern_cell_w w (Z.to_nat ((i * w + j) * 3 + k)) = Val (channel k (colour i j)).
Proof.
  intros Hi Hj Hk. unfold pattern_cell_w.
  assert (0 ≤ i * w) by nia.
  rewrite Z2Nat.id by lia.
  replace (((i * w + j) * 3 + k) / 3) with (i * w + j)
    by (apply (Z.div_unique _ 3 _ k); lia).
  replace (((i * w + j) * 3 + k) mod 3) with k
    by (apply (Z.mod_unique _ 3 (i * w + j) k); lia).
  replace ((i * w + j) / w) with i
    by (apply (Z.div_unique _ w _ j); lia).
  replace ((i * w + j) mod w) with j
    by (apply (Z.mod_unique _ w i j); lia).
  reflexivity.
Qed.

Lemma tick_at_w w l0 m0 m b n k :
  at_pos_w w l0 m0 m b n k →
  ∃ m', tick m = Ok () m' ∧ at_pos_w w l0 m0 m' b n (S k).
Proof.
  intros (Hi & Hh & Ha & Hk). eexists. split; [reflexivity|].
  repeat split; simpl; try done. lia.
Qed.

Lemma load_int_at_w w l0 m0 m b n k p v :
  at_pos_w w l0 m0 m b n k → ints m0 !! p = Some v → load_int p m = Ok v m.
Proof. intros (Hi & _) Hp. unfold load_int. by rewrite Hi, Hp. Qed.

Lemma store_uc_at_w w l0 m0 m b n k idx v :
  at_pos_w w l0 m0 m b n k → idx = Z.of_nat n → (n < length l0)%nat →
  Val (v mod 256) = pattern_cell_w w n →
  ∃ m', store_uc (Ptr b) idx v m = Ok () m' ∧ at_pos_w w l0 m0 m' b (S n) k.
Proof.
  intros (Hi & Hh & Ha & Hk) -> Hn Hv. unfold store_uc.
  rewrite Hh, lookup_insert_eq, overwritten_length by lia.
  destruct (Z.leb_spec 0 (Z.of_nat n)); [|lia].
  destruct (Z.ltb_spec (Z.of_nat n) (Z.of_nat (length l0))); [|lia].
  simpl. eexists. split; [reflexivity|].
  repeat split; simpl; try done.
  rewrite insert_insert_eq, Nat2Z.id, Hv. f_equal. by apply overwritten_write.
Qed.

Lemma fill_pixel_at_w w h l0 m0 m b x i j k :
  ints m0 !! x = Some w → 0 ≤ i < h → 0 ≤ j < w →
  h ≤ INT_MAX → w * h * 3 ≤ INT_MAX → w * h * 3 ≤ Z.of_nat (length l0) →
  at_pos_w w l0 m0 m b (Z.to_nat ((i * w + j) * 3)) k →
  ∃ m', fill_pixel (Ptr b) x i j m = Ok () m' ∧
        at_pos_w w l0 m0 m' b (Z.to_nat ((i * w + (j + 1)) * 3)) (S k).
Proof.
  intros Hx Hi Hj Hh Hsz Hlen Hm. unfold fill_pixel.
  assert (0 ≤ i * w) by nia.
  assert (i * w + w ≤ w * h) by nia.
  assert (w ≤ w * h) by nia.
  assert (w + h ≤ w * h + 1) by nia.
  assert (0 ≤ i / 8 ≤ i)
    by (split; [apply Z.div_pos|apply Z.div_le_upper_bound]; lia).
  assert (0 ≤ j / 8 ≤ j)
    by (split; [apply Z.div_pos|apply Z.div_le_upper_bound]; lia).
  destruct (tick_at_w _ _ _ _ _ _ _ Hm) as (m1 & Hs & Hm1). run Hs.
  run (load_int_at_w _ _ _ _ _ _ _ _ _ Hm1 Hx).
  do 7 run_int.
  rewrite <- red_tile_nonneg by lia.
  set (idx := (i * w + j) * 3) in *.
  assert (Hc : ∀ c, 0 ≤ c < 3 →
    pattern_cell_w w (Z.to_nat idx + Z.to_nat c) = Val (channel c (colour i j))).
  { intros c Hc. rewrite <- Z2Nat.inj_add by lia. apply pattern_cell_w_at; lia. }
  pose proof (Hc 0 ltac:(lia)) as Hc0. rewrite Nat.add_0_r in Hc0.
  pose proof (Hc 1 ltac:(lia)) as Hc1. change (Z.to_nat 1) with 1%nat in Hc1.
  rewrite Nat.add_1_r in Hc1.
  pose proof (Hc 2 ltac:(lia)) as Hc2. change (Z.to_nat 2) with 2%nat in Hc2.
  replace (Z.to_nat idx + 2)%nat with (S (S (Z.to_nat idx))) in Hc2 by lia.
  replace (Z.to_nat ((i * w + (j + 1)) * 3)) with (S (S (S (Z.to_nat idx)))) by lia.
  unfold colour, channel in Hc0, Hc1, Hc2.
  destruct (red_tile i j); simpl in Hc0, Hc1, Hc2.
  - destruct (store_uc_at_w _ _ _ _ _ _ _ idx 255 Hm1) as (m2 & Hs2 & Hm2);
      [lia | lia | by rewrite Hc0 |]. run Hs2. run_int.
    destruct (store_uc_at_w _ _ _ _ _ _ _ (idx + 1) 0 Hm2) as (m3 & Hs3 & Hm3);
      [lia | lia | by rewrite Hc1 |]. run Hs3. run_int.
    destruct (store_uc_at_w _ _ _ _ _ _ _ (idx + 2) 0 Hm3) as (m4 & Hs4 & Hm4);
      [lia | lia | by rewrite Hc2 |].
    by exists m4.
  - destruct (store_uc_at_w _ _ _ _ _ _ _ idx 0 Hm1) as (m2 & Hs2 & Hm2);
      [lia | lia | by rewrite Hc0 |]. run Hs2. run_int.
    destruct (store_uc_at_w _ _ _ _ _ _ _ (idx + 1) 255 Hm2) as (m3 & Hs3 & Hm3);
      [lia | lia | by rewrite Hc1 |]. run Hs3. run_int.
    destruct (store_uc_at_w _ _ _ _ _ _ _ (idx + 2) 0 Hm3) as (m4 & Hs4 & Hm4);
      [lia | lia | by rewrite Hc2 |].
    by exists m4.
Qed.

(** The inner loop, entered with [r] columns of row [i] left to fill. *)
Lemma fill_row_at_w (r : nat) : ∀ fuel w h l0 m0 m b x i j k,
  ints m0 !! x = Some w → 0 ≤ i < h → j = w - Z.of_nat r → 0 ≤ j →
  h ≤ INT_MAX → w * h * 3 ≤ INT_MAX → w * h * 3 ≤ Z.of_nat (length l0) →
  (r < fuel)%nat →
  at_pos_w w l0 m0 m b (Z.to_nat ((i * w + j) * 3)) k →
  ∃ m', fill_row fuel (Ptr b) x i j m = Ok () m' ∧
        at_pos_w w l0 m0 m' b (Z.to_nat ((i * w + w) * 3)) (k + r).
Proof.
  induction r as [|r IH];
    intros fuel w h l0 m0 m b x i j k Hx Hi Hj Hj0 Hh Hsz Hlen Hfuel Hm;
    (destruct fuel as [|fuel]; [lia|]); cbn [fill_row].
  - run (load_int_at_w _ _ _ _ _ _ _ _ _ Hm Hx).
    destruct (Z.ltb_spec j w); [lia|].
    exists m. split; [reflexivity|].
    replace j with w in Hm by lia. by rewrite Nat.add_0_r.
  - run (load_int_at_w _ _ _ _ _ _ _ _ _ Hm Hx).
    destruct (Z.ltb_spec j w); [|lia].
    destruct (fill_pixel_at_w w h l0 m0 m b x i j k) as (m1 & Hs & Hm1);
      [done|lia|lia|done..|].
    assert (w ≤ w * h) by nia.
    run Hs. run_int.
    destruct (IH fuel w h l0 m0 m1 b x i (j + 1) (S k)) as (m2 & Hs2 & Hm2);
      [done|lia|lia|lia|done|done|done|lia|done|].
    exists m2. split; [done|].
    by replace (k + S r)%nat with (S k + r)%nat by lia.
Qed.

(** The outer loop, entered with [r] rows left to fill. *)
Lemma fill_rows_at_w (r : nat) : ∀ fuel_j fuel w h l0 m0 m b x y i k,
  ints m0 !! x = Some w → ints m0 !! y = Some h →
  i = h - Z.of_nat r → 0 ≤ i → 0 ≤ w →
  h ≤ INT_MAX → w * h * 3 ≤ INT_MAX → w * h * 3 ≤ Z.of_nat (length l0) →
  (Z.to_nat w < fuel_j)%nat → (r < fuel)%nat →
  at_pos_w w l0 m0 m b (Z.to_nat (i * w * 3)) k →
  ∃ m', fill_rows fuel_j fuel (Ptr b) x y i m = Ok () m' ∧
        at_pos_w w l0 m0 m' b (Z.to_nat (h * w * 3)) (k + Z.to_nat w * r).
Proof.
  induction r as [|r IH];
    intros fuel_j fuel w h l0 m0 m b x y i k Hx Hy Hi Hi0 Hw Hh Hsz Hlen Hfj Hfuel Hm;
    (destruct fuel as [|fuel]; [lia|]); cbn [fill_rows].
  - run (load_int_at_w _ _ _ _ _ _ _ _ _ Hm Hy).
    destruct (Z.ltb_spec i h); [lia|].
    exists m. split; [reflexivity|].
    replace i with h in Hm by lia. by rewrite Nat.mul_0_r, Nat.add_0_r.
  - run (load_int_at_w _ _ _ _ _ _ _ _ _ Hm Hy).
    destruct (Z.ltb_spec i h); [|lia].
    destruct (fill_row_at_w (Z.to_nat w) fuel_j w h l0 m0 m b x i 0 k)
      as (m1 & Hs & Hm1); [done|lia|lia|lia|done|done|done|lia| |].
    { by replace (i * w + 0) with (i * w) by lia. }
    run Hs. run_int.
    destruct (IH fuel_j fuel w h l0 m0 m1 b x y (i + 1) (k + Z.to_nat w)%nat)
      as (m2 & Hs2 & Hm2); [done|done|lia|lia|done|done|done|done|lia|lia| |].
    { by replace ((i + 1) * w * 3) with ((i * w + w) * 3) by lia. }
    exists m2. split; [done|].
    by replace (k + Z.to_nat w * S r)%nat with (k + Z.to_nat w + Z.to_nat w * r)%nat by lia.
Qed.

(** The two loops, run on a live block that holds [l0], with [*x = w] and
    [*y = h]. *)
Lemma fill_rows_run fuel_j fuel m b l0 x y w h :
  ints m !! x = Some w → ints m !! y = Some h → heap m !! b = Some l0 →
  0 ≤ w → 0 ≤ h ≤ INT_MAX → w * h * 3 ≤ INT_MAX →
  w * h * 3 ≤ Z.of_nat (length l0) →
  (Z.to_nat w < fuel_j)%nat → (Z.to_nat h < fuel)%nat →
  ∃ m', fill_rows fuel_j fuel (Ptr b) x y 0 m = Ok () m' ∧
        ints m' = ints m ∧
        heap m' = <[b := overwritten w l0 (Z.to_nat (w * h * 3))]> (heap m) ∧
        avail m' = avail m ∧
        iterations m' = (iterations m + Z.to_nat (w * h))%nat.
Proof.
  intros Hx Hy Hb Hw Hh Hsz Hlen Hfj Hfuel.
  destruct (fill_rows_at_w (Z.to_nat h) fuel_j fuel w h l0 m m b x y 0 0%nat)
    as (m' & Hrun & Hi & Hheap & Ha & Hk);
    [done|done|lia|lia|done|lia|done|done|done|lia| |].
  { unfold at_pos_w. split_and!; [done| |done|lia].
    change (Z.to_nat (0 * w * 3)) with 0%nat.
    unfold overwritten. cbn [seq fmap list_fmap app]. rewrite drop_0.
    by rewrite insert_id. }
  exists m'. split_and!; [done..| |done|].
  - by replace (w * h * 3) with (h * w * 3) by lia.
  - rewrite Hk, Z2Nat.inj_mul by lia. lia.
Qed.

(** The loops overwrite whatever the block held: on a live block of at
    least [w * h * 3] bytes, with [*x = w] and [*y = h], they return after
    [w * h] executions of the body; every byte below [w * h * 3] is then
    the pattern byte of its pixel and channel, whatever it was before,
    and the bytes from [w * h * 3] on, the [int] objects, the other
    blocks and the allocator are as they were. *)
Theorem fill_rows_overwrites fuel_j fuel m b l0 x y w h :
  ints m !! x = Some w → ints m !! y = Some h → heap m !! b = Some l0 →
  0 ≤ w → 0 ≤ h ≤ INT_MAX → w * h * 3 ≤ INT_MAX →
  w * h * 3 ≤ Z.of_nat (length l0) →
  (Z.to_nat w < fuel_j)%nat → (Z.to_nat h < fuel)%nat →
  ∃ m' buf,
    fill_rows fuel_j fuel (Ptr b) x y 0 m = Ok () m' ∧
    heap m' !! b = Some buf ∧
    length buf = length l0 ∧
    (∀ i j k, 0 ≤ i < h → 0 ≤ j < w → 0 ≤ k < 3 →
       buf !! Z.to_nat ((i * w + j) * 3 + k) = Some (Val (channel k (colour i j)))) ∧
    (∀ o, w * h * 3 ≤ Z.of_nat o → buf !! o = l0 !! o) ∧
    ints m' = ints m ∧
    (∀ b', b' ≠ b → heap m' !! b' = heap m !! b') ∧
    avail m' = avail m ∧
    iterations m' = (iterations m + Z.to_nat (w * h))%nat.
Proof.
  intros Hx Hy Hb Hw Hh Hsz Hlen Hfj Hfuel.
  destruct (fill_rows_run fuel_j fuel m b l0 x y w h)
    as (m' & Hrun & Hi & Hheap & Ha & Hk); [done..|].
  exists m', (overwritten w l0 (Z.to_nat (w * h * 3))).
  assert (0 ≤ w * h) by nia.
  rewrite Hheap. split_and!; try done.
  - apply lookup_insert_eq.
  - apply overwritten_length. lia.
  - intros i j k Hi' Hj Hk'.
    assert (0 ≤ i * w) by nia. assert (i * w + w ≤ w * h) by nia.
    rewrite overwritten_lookup by lia.
    by rewrite pattern_cell_w_at by lia.
  - intros o Ho. apply overwritten_lookup_ge. lia.
  - intros b' Hb'. by rewrite lookup_insert_ne.
Qed.

Lemma fill_rows_overwrites_witness :
  ints stale_mem !! 1%positive = Some 3 ∧ ints stale_mem !! 2%positive = Some 3 ∧
  heap stale_mem !! 5%positive = Some (replicate 30 (Val 7)) ∧
  0 ≤ 3 ∧ 0 ≤ 3 ≤ INT_MAX ∧ 3 * 3 * 3 ≤ INT_MAX ∧
  3 * 3 * 3 ≤ Z.of_nat (length (replicate 30 (Val 7))) ∧
  (Z.to_nat 3 < 4)%nat ∧ (Z.to_nat 3 < 4)%nat ∧
  ∃ m' buf,
    fill_rows 4 4 (Ptr 5) 1 2 0 stale_mem = Ok () m' ∧
    heap m' !! 5%positive = Some buf ∧
    length buf = length (replicate 30 (Val 7)) ∧
    (∀ i j k, 0 ≤ i < 3 → 0 ≤ j < 3 → 0 ≤ k < 3 →
       buf !! Z.to_nat ((i * 3 + j) * 3 + k) = Some (Val (channel k (colour i j)))) ∧
    (∀ o, 3 * 3 * 3 ≤ Z.of_nat o → buf !! o = replicate 30 (Val 7) !! o) ∧
    ints m' = ints stale_mem ∧
    (∀ b', b' ≠ 5%positive → heap m' !! b' = heap stale_mem !! b') ∧
    avail m' = avail stale_mem ∧
    iterations m' = (iterations stale_mem + Z.to_nat (3 * 3))%nat.
Proof.
  split; [reflexivity|]. split; [reflexivity|]. split; [reflexivity|].
  split; [lia|]. split; [unfold INT_MAX; lia|]. split; [unfold INT_MAX; lia|].
  split; [simpl; lia|]. split; [simpl; lia|]. split; [simpl; lia|].
  apply (fill_rows_overwrites 4 4 stale_mem 5 (replicate 30 (Val 7)) 1 2 3 3);
    [reflexivity|reflexivity|reflexivity|lia|unfold INT_MAX; lia
    |unfold INT_MAX; lia|simpl; lia|simpl; lia|simpl; lia].
Defined.

(** ** [stbi_load] when the out-parameters alias *)

Lemma out_dim_cases p comp : out_dim p comp = 3 ∨ out_dim p comp = 64.
Proof. unfold out_dim. case_decide; eauto. Qed.

(** The out-parameters after the three stores of lines 39-41, whatever
    the aliasing. *)
Lemma out_params_stored_gen (I : gmap positive Z) x y comp :
  let I' := <[comp := 3]> (<[y := 64]> (<[x := 64]> I)) in
  I' !! x = Some (out_dim x comp) ∧ I' !! y = Some (out_dim y comp) ∧
  I' !! comp = Some 3.
Proof.
  cbv zeta. unfold out_dim. rewrite !lookup_insert.
  split_and!; repeat case_decide; simplify_eq; done.
Qed.

Lemma pattern_list_lookup w n i j k :
  0 ≤ i → 0 ≤ j < w → 0 ≤ k < 3 →
  (i * w + j) * 3 + k < Z.of_nat n →
  (pattern_cell_w w <$> seq 0 n) !! Z.to_nat ((i * w + j) * 3 + k)
  = Some (Val (channel k (colour i j))).
Proof.
  intros Hi Hj Hk Hn. assert (0 ≤ i * w) by nia.
  rewrite list_lookup_fmap, lookup_seq_lt by lia. cbn [fmap option_fmap option_map].
  by rewrite Nat.add_0_l, pattern_cell_w_at by lia.
Qed.

Lemma pattern_list_pixel w n row col :
  0 ≤ row → 0 ≤ col < w →
  (row * w + col) * 3 + 2 < Z.of_nat n →
  pixel w (pattern_cell_w w <$> seq 0 n) row col = Some (colour row col).
Proof.
  intros Hr Hc Hn. unfold pixel. assert (0 ≤ row * w) by nia.
  pose proof (pattern_list_lookup w n row col 0 Hr Hc ltac:(lia) ltac:(lia)) as H0.
  pose proof (pattern_list_lookup w n row col 1 Hr Hc ltac:(lia) ltac:(lia)) as H1.
  pose proof (pattern_list_lookup w n row col 2 Hr Hc ltac:(lia) ltac:(lia)) as H2.
  rewrite Z.add_0_r in H0.
  rewrite Z2Nat.inj_add in H1, H2 by lia.
  change (Z.to_nat 1) with 1%nat in H1. change (Z.to_nat 2) with 2%nat in H2.
  rewrite H0, H1, H2. unfold colour, channel.
  by destruct (red_tile row col).
Qed.

(** The return of [stbi_load] for live out-parameters that may alias:
    the width and height used are the ones line 41 has left in [*x] and
    [*y]. *)
Lemma stbi_load_returns_gen fuel filename x y comp req_comp m :
  is_Some (ints m !! x) → is_Some (ints m !! y) → is_Some (ints m !! comp) →
  can_alloc m (out_dim x comp * out_dim y comp * 3) → (64 < fuel)%nat →
  ∃ m', stbi_load fuel filename x y comp req_comp m
          = Ok (Ptr (fresh (dom (heap m)))) m' ∧
        ints m' = <[comp := 3]> (<[y := 64]> (<[x := 64]> (ints m))) ∧
        heap m' = <[fresh (dom (heap m)) :=
                      pattern_cell_w (out_dim x comp)
                        <$> seq 0 (Z.to_nat (out_dim x comp * out_dim y comp * 3))]>
                    (heap m) ∧
        avail m' = avail m - out_dim x comp * out_dim y comp * 3 ∧
        iterations m'
        = (iterations m + Z.to_nat (out_dim x comp * out_dim y comp))%nat.
Proof.
  destruct m as [I h a k]. unfold can_alloc.
  cbn [ints heap avail iterations].
  intros [vx0 Hx] [vy0 Hy] [vc0 Hc] Hav Hfuel.
  assert (is_Some (<[x := 64]> I !! y)) as [? Hy']
    by (rewrite lookup_insert; case_decide; eauto).
  assert (is_Some (<[y := 64]> (<[x := 64]> I) !! comp)) as [? Hc']
    by (rewrite !lookup_insert; repeat case_decide; eauto).
  destruct (out_params_stored_gen I x y comp) as (HIx & HIy & _).
  set (w := out_dim x comp) in *. set (d := out_dim y comp) in *.
  assert (Hw : w = 3 ∨ w = 64) by apply out_dim_cases.
  assert (Hd : d = 3 ∨ d = 64) by apply out_dim_cases.
  assert (9 ≤ w * d ≤ 4096) by nia.
  unfold stbi_load.
  run (store_int_Mem _ h a k _ 64 _ Hx).
  run (store_int_Mem _ h a k _ 64 _ Hy').
  run (store_int_Mem _ h a k _ 3 _ Hc').
  run (load_int_Mem _ h a k _ _ HIx).
  run (load_int_Mem _ h a k _ _ HIy).
  do 2 run_int.
  run (malloc_Mem (<[comp := 3]> (<[y := 64]> (<[x := 64]> I))) h a k (w * d * 3) Hav).
  set (b := fresh (dom h)).
  set (l0 := replicate (Z.to_nat (w * d * 3)) Undef).
  set (I' := <[comp := 3]> (<[y := 64]> (<[x := 64]> I))) in *.
  destruct (fill_rows_run fuel fuel
              (Mem I' (<[b := l0]> h) (a - w * d * 3) k) b l0 x y w d)
    as (m2 & Hs & Hi2 & Hh2 & Ha2 & Hk2);
    [done|done|apply lookup_insert_eq|lia|unfold INT_MAX; lia|unfold INT_MAX; lia
    |unfold l0; rewrite length_replicate; lia|lia|lia|].
  run Hs. exists m2. split; [reflexivity|].
  cbn [ints heap avail iterations] in *.
  split_and!; try done.
  rewrite Hh2, insert_insert_eq. f_equal. unfold overwritten.
  rewrite drop_ge by (unfold l0; rewrite length_replicate; lia).
  apply app_nil_r.
Qed.

(** Whatever the aliasing among three live out-parameters, a call whose
    allocation succeeds returns an image of the width and height it has
    left in [*x] and [*y] (3 instead of 64 for an out-parameter that is
    also [comp]): the buffer has [*x * *y * *comp] bytes, its pixels
    follow the checkerboard rule at the offsets of that width, and the
    loop body has run [*x * *y] times. *)
Theorem stbi_load_aliased_out_params fuel filename x y comp req_comp m :
  is_Some (ints m !! x) → is_Some (ints m !! y) → is_Some (ints m !! comp) →
  can_alloc m (out_dim x comp * out_dim y comp * 3) → (64 < fuel)%nat →
  ∃ b m' buf w h,
    stbi_load fuel filename x y comp req_comp m = Ok (Ptr b) m' ∧
    heap m' !! b = Some buf ∧
    ints m' !! x = Some w ∧ ints m' !! y = Some h ∧ ints m' !! comp = Some 3 ∧
    w = out_dim x comp ∧ h = out_dim y comp ∧
    Z.of_nat (length buf) = w * h * 3 ∧
    (∀ row col, 0 ≤ row < h → 0 ≤ col < w →
       pixel w buf row col = Some (colour row col)) ∧
    iterations m' = (iterations m + Z.to_nat (w * h))%nat.
Proof.
  intros Hx Hy Hc Hav Hfuel.
  destruct (stbi_load_returns_gen fuel filename x y comp req_comp m Hx Hy Hc Hav Hfuel)
    as (m' & Hrun & Hi & Hh & _ & Hk).
  destruct (out_params_stored_gen (ints m) x y comp) as (HIx & HIy & HIc).
  set (w := out_dim x comp) in *. set (d := out_dim y comp) in *.
  assert (Hw : w = 3 ∨ w = 64) by apply out_dim_cases.
  assert (Hd : d = 3 ∨ d = 64) by apply out_dim_cases.
  assert (9 ≤ w * d ≤ 4096) by nia.
  eexists _, m', _, w, d. rewrite Hi, Hh, lookup_insert_eq.
  split_and!; try done.
  - rewrite length_fmap, length_seq. lia.
  - intros row col Hr Hcol. apply pattern_list_pixel; [lia..|].
    assert (0 ≤ row * w) by nia. assert (row * w + w ≤ w * d) by nia. lia.
Qed.

Lemma stbi_load_aliased_out_params_witness :
  is_Some (ints caller_mem !! 1%positive) ∧ is_Some (ints caller_mem !! 2%positive) ∧
  is_Some (ints caller_mem !! 1%positive) ∧
  can_alloc caller_mem (out_dim 1 1 * out_dim 2 1 * 3) ∧ (64 < 65)%nat ∧
  ∃ b m' buf w h,
    stbi_load 65 "image.png" 1 2 1 0 caller_mem = Ok (Ptr b) m' ∧
    heap m' !! b = Some buf ∧
    ints m' !! 1%positive = Some w ∧ ints m' !! 2%positive = Some h ∧
    ints m' !! 1%positive = Some 3 ∧
    w = out_dim 1 1 ∧ h = out_dim 2 1 ∧
    Z.of_nat (length buf) = w * h * 3 ∧
    (∀ row col, 0 ≤ row < h → 0 ≤ col < w →
       pixel w buf row col = Some (colour row col)) ∧
    iterations m' = (iterations caller_mem + Z.to_nat (w * h))%nat.
Proof.
  assert (Hav : can_alloc caller_mem (out_dim 1 1 * out_dim 2 1 * 3))
    by (unfold can_alloc; vm_compute; split; discriminate).
  split; [by eexists|]. split; [by eexists|]. split; [by eexists|].
  split; [exact Hav|]. split; [lia|].
  apply stbi_load_aliased_out_params; [by eexists|by eexists|by eexists|exact Hav|lia].
Defined.

(** ** When [stbi_load] returns *)

Lemma bind_Ok_inv {A B} (e : M A) (k : A → M B) m b m'' :
  bind e k m = Ok b m'' → ∃ a m', e m = Ok a m' ∧ k a m' = Ok b m''.
Proof. unfold bind. destruct (e m) as [a m'| |]; [eauto|done..]. Qed.

Lemma store_int_Ok_live p v m a m' :
  store_int p v m = Ok a m' → is_Some (ints m !! p).
Proof. unfold store_int. destruct (ints m !! p); [eauto|done]. Qed.

Lemma malloc_inv size m data m' :
  malloc size m = Ok data m' →
  (can_alloc m size ∧ data = Ptr (fresh (dom (heap m)))) ∨ (data = NULL ∧ m' = m).
Proof.
  unfold malloc, can_alloc.
  destruct (Z.leb_spec 0 size), (Z.leb_spec size (avail m)); cbn [andb];
    intros [= <- <-]; eauto.
Qed.

Lemma fill_pixel_NULL_origin x m w :
  ints m !! x = Some w → fill_pixel NULL x 0 0 m = Undefined.
Proof.
  intros Hx. unfold fill_pixel.
  unfold bind at 1, tick.
  erewrite bind_Ok; [|unfold load_int; cbn [ints]; by rewrite Hx].
  do 5 run_int. change (0 / 8) with 0. do 2 run_int. by destruct (_ =? 0).
Qed.

(** Entered with the null pointer and a width and height above 0, the
    loops do not return. *)
Lemma fill_rows_NULL_gen fuel_j fuel x y m w h m' :
  ints m !! x = Some w → ints m !! y = Some h → 0 < w → 0 < h →
  fill_rows fuel_j fuel NULL x y 0 m ≠ Ok () m'.
Proof.
  intros Hx Hy Hw Hh. destruct fuel as [|fuel]; [done|]. cbn [fill_rows].
  erewrite bind_Ok; [|unfold load_int; by rewrite Hy].
  destruct (Z.ltb_spec 0 h); [|lia].
  destruct fuel_j as [|fuel_j]; [done|]. cbn [fill_row].
  unfold bind at 1. erewrite bind_Ok; [|unfold load_int; by rewrite Hx].
  destruct (Z.ltb_spec 0 w); [|lia].
  unfold bind at 1. by rewrite (fill_pixel_NULL_origin x m w Hx).
Qed.

(** A call that returns had three live out-parameters and an allocator
    that could serve the image, and returns the block [malloc] made. *)
Lemma stbi_load_Ok_inv fuel filename x y comp req_comp m p m' :
  stbi_load fuel filename x y comp req_comp m = Ok p m' →
  is_Some (ints m !! x) ∧ is_Some (ints m !! y) ∧ is_Some (ints m !! comp) ∧
  can_alloc m (out_dim x comp * out_dim y comp * 3) ∧
  p = Ptr (fresh (dom (heap m))).
Proof.
  unfold stbi_load. intros Hrun.
  apply bind_Ok_inv in Hrun as ([] & m1 & H1 & Hrun).
  apply bind_Ok_inv in Hrun as ([] & m2 & H2 & Hrun).
  apply bind_Ok_inv in Hrun as ([] & m3 & H3 & Hrun).
  apply bind_Ok_inv in Hrun as (vx & ? & [Hvx ->]%load_int_inv & Hrun).
  apply bind_Ok_inv in Hrun as (vy & ? & [Hvy ->]%load_int_inv & Hrun).
  apply bind_Ok_inv in Hrun as (t & ? & [-> ->]%int_result_inv & Hrun).
  apply bind_Ok_inv in Hrun as (size & ? & [-> ->]%int_result_inv & Hrun).
  apply bind_Ok_inv in Hrun as (data & m4 & H4 & Hrun).
  apply bind_Ok_inv in Hrun as ([] & m5 & H5 & Hrun).
  injection Hrun as -> ->.
  pose proof (store_int_Ok_live _ _ _ _ _ H1) as Lx.
  pose proof (store_int_Ok_live _ _ _ _ _ H2) as Ly.
  pose proof (store_int_Ok_live _ _ _ _ _ H3) as Lc.
  apply store_int_inv in H1, H2, H3. subst m1 m2. cbn [ints heap avail iterations] in *.
  assert (Hy : is_Some (ints m !! y)).
  { revert Ly. rewrite lookup_insert. case_decide; [by subst|done]. }
  assert (Hc : is_Some (ints m !! comp)).
  { revert Lc. rewrite !lookup_insert. repeat case_decide; by subst. }
  destruct (out_params_stored_gen (ints m) x y comp) as (HIx & HIy & _).
  subst m3. cbn [ints heap avail iterations] in *.
  assert (vx = out_dim x comp) as -> by congruence.
  assert (vy = out_dim y comp) as -> by congruence.
  split_and!; [done..| |].
  - destruct (malloc_inv _ _ _ _ H4) as [[Hav _]|[-> ->]]; [done|].
    exfalso. revert H5.
    apply (fill_rows_NULL_gen _ _ _ _ _ (out_dim x comp) (out_dim y comp));
      [done|done|..].
    + destruct (out_dim_cases x comp); lia.
    + destruct (out_dim_cases y comp); lia.
  - destruct (malloc_inv _ _ _ _ H4) as [[_ ->]|[-> ->]]; [done|].
    exfalso. revert H5.
    apply (fill_rows_NULL_gen _ _ _ _ _ (out_dim x comp) (out_dim y comp));
      [done|done|..].
    + destruct (out_dim_cases x comp); lia.
    + destruct (out_dim_cases y comp); lia.
Qed.

(** [stbi_load] never returns the null pointer, whatever its arguments,
    the memory and the fuel: when [malloc] fails, the first store of the
    loop goes through the null pointer before line 62 is reached. *)
Theorem stbi_load_never_NULL fuel filename x y comp req_comp m m' :
  stbi_load fuel filename x y comp req_comp m ≠ Ok NULL m'.
Proof.
  intros Hrun. by destruct (stbi_load_Ok_inv _ _ _ _ _ _ _ _ _ Hrun) as (_ & _ & _ & _ & ?).
Qed.

(** [stbi_load] returns exactly when its three out-parameters are live
    and the allocator can serve the bytes of the image, aliasing taken
    into account; a dead out-parameter or a failed allocation is undefined
    behaviour, not an error return. *)
Theorem stbi_load_returns_iff fuel filename x y comp req_comp m :
  (64 < fuel)%nat →
  (∃ p m', stbi_load fuel filename x y comp req_comp m = Ok p m') ↔
  (is_Some (ints m !! x) ∧ is_Some (ints m !! y) ∧ is_Some (ints m !! comp) ∧
   can_alloc m (out_dim x comp * out_dim y comp * 3)).
Proof.
  intros Hfuel. split.
  - intros (p & m' & Hrun).
    by destruct (stbi_load_Ok_inv _ _ _ _ _ _ _ _ _ Hrun) as (? & ? & ? & ? & _).
  - intros (Hx & Hy & Hc & Hav).
    destruct (stbi_load_returns_gen fuel filename x y comp req_comp m Hx Hy Hc Hav Hfuel)
      as (m' & Hrun & _).
    eauto.
Qed.

Lemma stbi_load_returns_iff_witness :
  (64 < 65)%nat ∧
  ((∃ p m', stbi_load 65 "image.png" 1 2 3 0 caller_mem = Ok p m') ↔
   (is_Some (ints caller_mem !! 1%positive) ∧ is_Some (ints caller_mem !! 2%positive) ∧
    is_Some (ints caller_mem !! 3%positive) ∧
    can_alloc caller_mem (out_dim 1 3 * out_dim 2 3 * 3))).
Proof.
  split; [lia|]. apply stbi_load_returns_iff. lia.
Defined.

(** ** What a call leaves untouched *)

Lemma stored_live (I : gmap positive Z) x y comp q :
  is_Some (I !! q) → is_Some (<[comp := 3]> (<[y := 64]> (<[x := 64]> I)) !! q).
Proof. intros Hq. rewrite !lookup_insert. repeat case_decide; eauto. Qed.

(** A call that returns has written the three out-parameters and the new
    block, and nothing else: every other [int] object and every block that
    was live keeps its content, no [int] object appears or disappears, the
    new block was not live before, and the allocator has handed out
    exactly the bytes of the image. *)
Theorem stbi_load_frame fuel filename x y comp req_comp m :
  is_Some (ints m !! x) → is_Some (ints m !! y) → is_Some (ints m !! comp) →
  can_alloc m (out_dim x comp * out_dim y comp * 3) → (64 < fuel)%nat →
  ∃ b m' buf,
    stbi_load fuel filename x y comp req_comp m = Ok (Ptr b) m' ∧
    heap m !! b = None ∧
    heap m' !! b = Some buf ∧
    (∀ b', b' ≠ b → heap m' !! b' = heap m !! b') ∧
    (∀ q, q ≠ x → q ≠ y → q ≠ comp → ints m' !! q = ints m !! q) ∧
    (∀ q, is_Some (ints m' !! q) ↔ is_Some (ints m !! q)) ∧
    avail m' = avail m - Z.of_nat (length buf).
Proof.
  intros Hx Hy Hc Hav Hfuel.
  destruct (stbi_load_returns_gen fuel filename x y comp req_comp m Hx Hy Hc Hav Hfuel)
    as (m' & Hrun & Hi & Hh & Ha & _).
  eexists _, m', _. rewrite Hi, Hh, Ha, lookup_insert_eq.
  split_and!; [done| |done|..].
  - apply not_elem_of_dom, is_fresh.
  - intros b' Hb'. by rewrite lookup_insert_ne.
  - intros q Hqx Hqy Hqc. by rewrite !lookup_insert_ne.
  - intros q. split; [|apply stored_live].
    rewrite !lookup_insert. repeat case_decide; subst; eauto.
  - rewrite length_fmap, length_seq.
    destruct Hav as [Hav0 _]. lia.
Qed.

Lemma stbi_load_frame_witness :
  is_Some (ints caller_mem !! 1%positive) ∧ is_Some (ints caller_mem !! 2%positive) ∧
  is_Some (ints caller_mem !! 3%positive) ∧
  can_alloc caller_mem (out_dim 1 3 * out_dim 2 3 * 3) ∧ (64 < 65)%nat ∧
  ∃ b m' buf,
    stbi_load 65 "image.png" 1 2 3 0 caller_mem = Ok (Ptr b) m' ∧
    heap caller_mem !! b = None ∧
    heap m' !! b = Some buf ∧
    (∀ b', b' ≠ b → heap m' !! b' = heap caller_mem !! b') ∧
    (∀ q, q ≠ 1%positive → q ≠ 2%positive → q ≠ 3%positive →
       ints m' !! q = ints caller_mem !! q) ∧
    (∀ q, is_Some (ints m' !! q) ↔ is_Some (ints caller_mem !! q)) ∧
    avail m' = avail caller_mem - Z.of_nat (length buf).
Proof.
  assert (Hav : can_alloc caller_mem (out_dim 1 3 * out_dim 2 3 * 3))
    by (unfold can_alloc; vm_compute; split; discriminate).
  split; [by eexists|]. split; [by eexists|]. split; [by eexists|].
  split; [exact Hav|]. split; [lia|].
  apply stbi_load_frame; [by eexists|by eexists|by eexists|exact Hav|lia].
Defined.

(** ** Load and release *)

(** The memory after [stbi_load] and [stbi_image_free] of what it
    returned. *)
Lemma stbi_load_free_run fuel filename x y comp req_comp m :
  is_Some (ints m !! x) → is_Some (ints m !! y) → is_Some (ints m !! comp) →
  can_alloc m (out_dim x comp * out_dim y comp * 3) → (64 < fuel)%nat →
  ∃ b m' m'',
    stbi_load fuel filename x y comp req_comp m = Ok (Ptr b) m' ∧
    stbi_image_free (Ptr b) m' = Ok () m'' ∧
    heap m !! b = None ∧
    ints m'' = ints m' ∧
    ints m' = <[comp := 3]> (<[y := 64]> (<[x := 64]> (ints m))) ∧
    heap m'' = heap m ∧
    avail m'' = avail m' ∧
    iterations m'' = iterations m'.
Proof.
  intros Hx Hy Hc Hav Hfuel.
  destruct (stbi_load_returns_gen fuel filename x y comp req_comp m Hx Hy Hc Hav Hfuel)
    as (m' & Hrun & Hi & Hh & Ha & _).
  set (b := fresh (dom (heap m))) in *.
  assert (Hb : heap m !! b = None) by apply not_elem_of_dom, is_fresh.
  eexists b, m', _. split; [done|].
  unfold stbi_image_free, free. rewrite Hh, lookup_insert_eq.
  split; [reflexivity|]. cbn [ints heap avail iterations].
  split_and!; try done.
  by rewrite delete_insert_eq, delete_id.
Qed.

(** Load, then release: [stbi_image_free] on the pointer [stbi_load]
    returned succeeds and takes the block out of the heap. The live blocks
    are then exactly those of before the call, with their content, the
    released pointer is no live block any more, and the out-parameters
    still hold the dimensions of the image. *)
Theorem stbi_load_free_round_trip fuel filename x y comp req_comp m :
  is_Some (ints m !! x) → is_Some (ints m !! y) → is_Some (ints m !! comp) →
  can_alloc m (out_dim x comp * out_dim y comp * 3) → (64 < fuel)%nat →
  ∃ b m' m'',
    stbi_load fuel filename x y comp req_comp m = Ok (Ptr b) m' ∧
    stbi_image_free (Ptr b) m' = Ok () m'' ∧
    heap m'' = heap m ∧
    heap m'' !! b = None ∧
    ints m'' = ints m' ∧
    ints m'' !! x = Some (out_dim x comp) ∧
    ints m'' !! y = Some (out_dim y comp) ∧
    ints m'' !! comp = Some 3.
Proof.
  intros Hx Hy Hc Hav Hfuel.
  destruct (stbi_load_free_run fuel filename x y comp req_comp m Hx Hy Hc Hav Hfuel)
    as (b & m' & m'' & Hrun & Hfree & Hb & Hi'' & Hi' & Hh & _).
  destruct (out_params_stored_gen (ints m) x y comp) as (HIx & HIy & HIc).
  exists b, m', m''. rewrite Hi'', Hi', Hh. by split_and!.
Qed.

Lemma stbi_load_free_round_trip_witness :
  is_Some (ints caller_mem !! 1%positive) ∧ is_Some (ints caller_mem !! 2%positive) ∧
  is_Some (ints caller_mem !! 3%positive) ∧
  can_alloc caller_mem (out_dim 1 3 * out_dim 2 3 * 3) ∧ (64 < 65)%nat ∧
  ∃ b m' m'',
    stbi_load 65 "image.png" 1 2 3 0 caller_mem = Ok (Ptr b) m' ∧
    stbi_image_free (Ptr b) m' = Ok () m'' ∧
    heap m'' = heap caller_mem ∧
    heap m'' !! b = None ∧
    ints m'' = ints m' ∧
    ints m'' !! 1%positive = Some (out_dim 1 3) ∧
    ints m'' !! 2%positive = Some (out_dim 2 3) ∧
    ints m'' !! 3%positive = Some 3.
Proof.
  assert (Hav : can_alloc caller_mem (out_dim 1 3 * out_dim 2 3 * 3))
    by (unfold can_alloc; vm_compute; split; discriminate).
  split; [by eexists|]. split; [by eexists|]. split; [by eexists|].
  split; [exact Hav|]. split; [lia|].
  apply stbi_load_free_round_trip; [by eexists|by eexists|by eexists|exact Hav|lia].
Defined.

(** Releasing twice: after [stbi_image_free] has released the block
    [stbi_load] returned, a second [stbi_image_free] of the same pointer
    is undefined behaviour; so is, before the call, the release of the
    pointer the call is going to return. *)
Theorem stbi_image_free_twice fuel filename x y comp req_comp m :
  is_Some (ints m !! x) → is_Some (ints m !! y) → is_Some (ints m !! comp) →
  can_alloc m (out_dim x comp * out_dim y comp * 3) → (64 < fuel)%nat →
  ∃ b m' m'',
    stbi_load fuel filename x y comp req_comp m = Ok (Ptr b) m' ∧
    stbi_image_free (Ptr b) m' = Ok () m'' ∧
    stbi_image_free (Ptr b) m'' = Undefined ∧
    stbi_image_free (Ptr b) m = Undefined.
Proof.
  intros Hx Hy Hc Hav Hfuel.
  destruct (stbi_load_free_run fuel filename x y comp req_comp m Hx Hy Hc Hav Hfuel)
    as (b & m' & m'' & Hrun & Hfree & Hb & _ & _ & Hh & _).
  exists b, m', m''. split_and!; try done.
  - unfold stbi_image_free, free. by rewrite Hh, Hb.
  - unfold stbi_image_free, free. by rewrite Hb.
Qed.

Lemma stbi_image_free_twice_witness :
  is_Some (ints caller_mem !! 1%positive) ∧ is_Some (ints caller_mem !! 2%positive) ∧
  is_Some (ints caller_mem !! 3%positive) ∧
  can_alloc caller_mem (out_dim 1 3 * out_dim 2 3 * 3) ∧ (64 < 65)%nat ∧
  ∃ b m' m'',
    stbi_load 65 "image.png" 1 2 3 0 caller_mem = Ok (Ptr b) m' ∧
    stbi_image_free (Ptr b) m' = Ok () m'' ∧
    stbi_image_free (Ptr b) m'' = Undefined ∧
    stbi_image_free (Ptr b) caller_mem = Undefined.
Proof.
  assert (Hav : can_alloc caller_mem (out_dim 1 3 * out_dim 2 3 * 3))
    by (unfold can_alloc; vm_compute; split; discriminate).
  split; [by eexists|]. split; [by eexists|]. split; [by eexists|].
  split; [exact Hav|]. split; [lia|].
  apply stbi_image_free_twice; [by eexists|by eexists|by eexists|exact Hav|lia].
Defined.

(** ** Two calls in a row *)

Lemma out_dim_size_bounds x y comp :
  27 ≤ out_dim x comp * out_dim y comp * 3 ≤ 12288.
Proof.
  destruct (out_dim_cases x comp) as [-> | ->],
           (out_dim_cases y comp) as [-> | ->]; lia.
Qed.

(** A second call, made while the first image is still live, returns
    another block: the two pointers differ, the first image is intact
    after the second call, and both blocks are live. The two calls may use
    any file names, any [req_comp] and any live out-parameters. *)
Theorem stbi_load_twice
    fuel1 filename1 x1 y1 comp1 req_comp1
    fuel2 filename2 x2 y2 comp2 req_comp2 m :
  is_Some (ints m !! x1) → is_Some (ints m !! y1) → is_Some (ints m !! comp1) →
  is_Some (ints m !! x2) → is_Some (ints m !! y2) → is_Some (ints m !! comp2) →
  can_alloc m (out_dim x1 comp1 * out_dim y1 comp1 * 3
               + out_dim x2 comp2 * out_dim y2 comp2 * 3) →
  (64 < fuel1)%nat → (64 < fuel2)%nat →
  ∃ b1 m1 b2 m2 buf1,
    stbi_load fuel1 filename1 x1 y1 comp1 req_comp1 m = Ok (Ptr b1) m1 ∧
    stbi_load fuel2 filename2 x2 y2 comp2 req_comp2 m1 = Ok (Ptr b2) m2 ∧
    b1 ≠ b2 ∧
    heap m1 !! b1 = Some buf1 ∧
    heap m2 !! b1 = Some buf1 ∧
    is_Some (heap m2 !! b2).
Proof.
  intros Hx1 Hy1 Hc1 Hx2 Hy2 Hc2 [_ Hav] Hfuel1 Hfuel2.
  pose proof (out_dim_size_bounds x1 y1 comp1) as Hs1.
  pose proof (out_dim_size_bounds x2 y2 comp2) as Hs2.
  destruct (stbi_load_returns_gen fuel1 filename1 x1 y1 comp1 req_comp1 m)
    as (m1 & Hrun1 & Hi1 & Hh1 & Ha1 & _); [done|done|done| |done|].
  { unfold can_alloc. lia. }
  destruct (stbi_load_returns_gen fuel2 filename2 x2 y2 comp2 req_comp2 m1)
    as (m2 & Hrun2 & Hi2 & Hh2 & Ha2 & _); [..|done|].
  { rewrite Hi1. by apply stored_live. }
  { rewrite Hi1. by apply stored_live. }
  { rewrite Hi1. by apply stored_live. }
  { unfold can_alloc. lia. }
  set (b1 := fresh (dom (heap m))) in *.
  set (b2 := fresh (dom (heap m1))) in *.
  assert (Hne : b1 ≠ b2).
  { intros Heq. apply (is_fresh (dom (heap m1))). fold b2. rewrite <- Heq.
    apply elem_of_dom. rewrite Hh1, lookup_insert_eq. eauto. }
  eexists b1, m1, b2, m2, _. split_and!; [done|done|done|..].
  - rewrite Hh1. apply lookup_insert_eq.
  - rewrite Hh2, lookup_insert_ne by done. rewrite Hh1. apply lookup_insert_eq.
  - rewrite Hh2, lookup_insert_eq. eauto.
Qed.

Lemma stbi_load_twice_witness :
  let m := Mem (ints caller_mem) ∅ 24576 0 in
  is_Some (ints m !! 1%positive) ∧ is_Some (ints m !! 2%positive) ∧
  is_Some (ints m !! 3%positive) ∧
  is_Some (ints m !! 1%positive) ∧ is_Some (ints m !! 2%positive) ∧
  is_Some (ints m !! 3%positive) ∧
  can_alloc m (out_dim 1 3 * out_dim 2 3 * 3 + out_dim 1 3 * out_dim 2 3 * 3) ∧
  (64 < 65)%nat ∧ (64 < 65)%nat ∧
  ∃ b1 m1 b2 m2 buf1,
    stbi_load 65 "a.png" 1 2 3 0 m = Ok (Ptr b1) m1 ∧
    stbi_load 65 "b.png" 1 2 3 4 m1 = Ok (Ptr b2) m2 ∧
    b1 ≠ b2 ∧
    heap m1 !! b1 = Some buf1 ∧
    heap m2 !! b1 = Some buf1 ∧
    is_Some (heap m2 !! b2).
Proof.
  cbv zeta.
  assert (Hav : can_alloc (Mem (ints caller_mem) ∅ 24576 0)
                  (out_dim 1 3 * out_dim 2 3 * 3 + out_dim 1 3 * out_dim 2 3 * 3))
    by (unfold can_alloc; vm_compute; split; discriminate).
  split; [by eexists|]. split; [by eexists|]. split; [by eexists|].
  split; [by eexists|]. split; [by eexists|]. split; [by eexists|].
  split; [exact Hav|]. split; [lia|]. split; [lia|].
  apply stbi_load_twice;
    [by eexists|by eexists|by eexists|by eexists|by eexists|by eexists
    |exact Hav|lia|lia].
Defined.

(** ** The tiles of the image *)







(** ** The fuel of the model *)

Lemma mem_eq m1 m2 :
  ints m1 = ints m2 → heap m1 = heap m2 → avail m1 = avail m2 →
  iterations m1 = iterations m2 → m1 = m2.
Proof. destruct m1, m2. simpl. by intros -> -> -> ->. Qed.

(** Above 64 the fuel does not show: for all arguments and every memory,
    two runs of [stbi_load] with fuels above 64 have the same outcome,
    be it a return or undefined behaviour. *)
Theorem stbi_load_fuel_irrelevant fuel1 fuel2 filename x y comp req_comp m :
  (64 < fuel1)%nat → (64 < fuel2)%nat →
  stbi_load fuel1 filename x y comp req_comp m
  = stbi_load fuel2 filename x y comp req_comp m.
Proof.
  intros Hfuel1 Hfuel2.
  pose proof (stbi_load_halts fuel1 filename x y comp req_comp m Hfuel1) as Hh1.
  pose proof (stbi_load_halts fuel2 filename x y comp req_comp m Hfuel2) as Hh2.
  destruct (stbi_load fuel1 filename x y comp req_comp m) as [p1 m1| |] eqn:H1;
    [| |done].
  - destruct (stbi_load_Ok_inv _ _ _ _ _ _ _ _ _ H1) as (Hx & Hy & Hc & Hav & _).
    destruct (stbi_load_returns_gen fuel1 filename x y comp req_comp m Hx Hy Hc Hav Hfuel1)
      as (m1' & Hrun1 & Hi1 & Hheap1 & Ha1 & Hk1).
    destruct (stbi_load_returns_gen fuel2 filename x y comp req_comp m Hx Hy Hc Hav Hfuel2)
      as (m2' & Hrun2 & Hi2 & Hheap2 & Ha2 & Hk2).
    rewrite Hrun2. rewrite H1 in Hrun1. injection Hrun1 as -> ->.
    f_equal. apply mem_eq; congruence.
  - destruct (stbi_load fuel2 filename x y comp req_comp m) as [p2 m2| |] eqn:H2;
      [|done|done].
    destruct (stbi_load_Ok_inv _ _ _ _ _ _ _ _ _ H2) as (Hx & Hy & Hc & Hav & _).
    destruct (stbi_load_returns_gen fuel1 filename x y comp req_comp m Hx Hy Hc Hav Hfuel1)
      as (m1' & Hrun1 & _).
    congruence.
Qed.

Lemma stbi_load_fuel_irrelevant_witness :
  (64 < 65)%nat ∧ (64 < 1000)%nat ∧
  stbi_load 65 "image.png" 1 2 3 0 caller_mem
  = stbi_load 1000 "image.png" 1 2 3 0 caller_mem.
Proof.
  split; [lia|]. split; [lia|].
  apply stbi_load_fuel_irrelevant; lia.
Defined.

End StbImage.
